(** * feathers-sequelize: the CRUD adapter of [src/index.js]

    A shallow embedding of the [Service] class (find, get, create, patch,
    update, remove) over an abstract Sequelize model, together with an
    in-memory reference model of the ORM, and the properties of the
    adapter that the specification states.

    Layout:
    - [JS]        the fragment of JavaScript values the adapter handles;
    - [Errors]    the error taxonomy and [utils.errorHandler];
    - [Lodash]    lodash [omit];
    - [Filters]   feathers-query-filters ([filter]);
    - [Commons]   feathers-commons ([select]);
    - [Orm]       the calls the adapter makes on [this.Model], promises
                  as a state-and-error monad that records every call;
    - [Utils]     [utils.getWhere] and [utils.getOrder], taken as
                  parameters of the adapter;
    - [Params], [Options], [Service]
                  the objects the methods read and the service instance;
    - [Adapter]   the [Service] class itself, method by method;
    - [Mem]       an in-memory table implementing the model interface;
    - [Example]   a small table of tasks the statements are run on;
    - the lemmas about promises, calls and the in-memory model, and
      then the properties of the adapter, one per statement of the
      specification;
    - further properties of the adapter, read off the code: what each
      method makes of the ORM's answers, what it writes and where, and
      what is read back after a write.

    Conventions.  The model is any implementation of the calls the
    adapter makes; what it answers is a function of the database state,
    and every call is recorded with its arguments, so that statements
    about what the adapter asks of the ORM do not depend on a
    particular database.  Statements about what ends up stored are
    made over [Mem].  Every call of a method is given params of its
    own.  Objects are values; the one object that is changed in place,
    the [$select] array that [select] extends, is shared with the
    options of a query that is being started, and the methods that
    start such a query hand over the array as the ORM reads it (see
    [Commons] and [Adapter.patch], [Adapter.remove]). *)

From stdpp Require Import gmap strings list fin_maps.
From Stdlib Require Import ZArith Lia Ascii.

#[local] Set Warnings "-register-all".
#[local] Open Scope string_scope.
#[local] Open Scope list_scope.
#[local] Open Scope Z_scope.

(* ===================================================================== *)
(** ** JavaScript values *)
(* ===================================================================== *)

Module JS.

(** Numbers are integers, plus [VNaN] for what [parseInt] gives on input
    that is not a number.  An object is a finite map from property names
    to values; a property may hold [VUndef], which JavaScript
    distinguishes from an absent property only through [Object.keys]. *)
Inductive value : Type :=
| VUndef
| VNull
| VBool (b : bool)
| VNum (z : Z)
| VNaN
| VStr (s : string)
| VArr (l : list value)
| VObj (o : gmap string value).

Abbreviation obj := (gmap string value).

(** ToBoolean. *)
Definition truthy (v : value) : bool :=
  match v with
  | VUndef | VNull | VNaN => false
  | VBool b => b
  | VNum z => negb (z =? 0)
  | VStr s => negb (String.eqb s "")
  | VArr _ | VObj _ => true
  end.

(** [a || b]. *)
Definition or_else (a b : value) : value := if truthy a then a else b.

(** [v[k]] for a base that is not null or undefined: own properties of
    objects, [length] of arrays, [undefined] otherwise. *)
Definition prop (v : value) (k : string) : value :=
  match v with
  | VObj o => default VUndef (o !! k)
  | VArr l => if String.eqb k "length" then VNum (Z.of_nat (length l)) else VUndef
  | _ => VUndef
  end.

(** [typeof v === 'undefined'] *)
Definition is_undefined (v : value) : bool :=
  match v with VUndef => true | _ => false end.

(** [typeof v === 'number'] *)
Definition is_number (v : value) : bool :=
  match v with VNum _ | VNaN => true | _ => false end.

(** [Array.isArray(v)] *)
Definition isArray (v : value) : bool :=
  match v with VArr _ => true | _ => false end.

(** [v === null] *)
Definition is_null (v : value) : bool :=
  match v with VNull => true | _ => false end.

(** [v === false] *)
Definition is_false (v : value) : bool :=
  match v with VBool false => true | _ => false end.

(** The own enumerable properties that [Object.assign] copies from a
    source: those of an object; [undefined], [null] and the other
    primitives contribute nothing. *)
Definition own (v : value) : obj :=
  match v with VObj o => o | _ => ∅ end.

(** [Object.assign(target, source)] on a fresh target: the properties of
    the source win. *)
Definition assign (target : obj) (source : value) : obj := own source ∪ target.

(** [Math.abs] and [Math.min] on numbers. *)
Definition js_abs (v : value) : value :=
  match v with VNum z => VNum (Z.abs z) | _ => VNaN end.

Definition js_min (a b : value) : value :=
  match a, b with VNum x, VNum y => VNum (Z.min x y) | _, _ => VNaN end.

(** [Math.min(v, Number.MAX_VALUE)]. *)
Definition below_max_value (v : value) : value :=
  match v with VNum z => VNum z | _ => VNaN end.

(** [parseInt(v, 10)]: the integer written at the head of the string of
    [v], after blanks and a sign, and [NaN] when no digit is there.
    Numbers are integers here and are their own value (as they are
    below 10^21); of an array the string starts with that of its first
    item; the strings of [undefined], [null], booleans, [NaN] and
    objects start with no digit. *)
Definition digit (c : ascii) : option Z :=
  let n := Z.of_nat (nat_of_ascii c) in
  if (48 <=? n) && (n <=? 57) then Some (n - 48) else None.

(** The number that the digits at the head of a string write, if there
    is a digit. *)
Fixpoint leading (s : string) (acc : option Z) : option Z :=
  match s with
  | EmptyString => acc
  | String c s' =>
      match digit c with
      | Some d => leading s' (Some (10 * default 0 acc + d))
      | None => acc
      end
  end.

(** Space, tab, line feed, vertical tab, form feed, carriage return. *)
Definition blank (c : ascii) : bool :=
  let n := Z.of_nat (nat_of_ascii c) in
  (n =? 32) || ((9 <=? n) && (n <=? 13)).

Fixpoint trim (s : string) : string :=
  match s with
  | String c s' => if blank c then trim s' else s
  | EmptyString => s
  end.

Definition signed (s : string) : value :=
  match trim s with
  | String "-"%char s' =>
      match leading s' None with Some n => VNum (- n) | None => VNaN end
  | String "+"%char s' =>
      match leading s' None with Some n => VNum n | None => VNaN end
  | s' =>
      match leading s' None with Some n => VNum n | None => VNaN end
  end.

Fixpoint parseInt (v : value) : value :=
  match v with
  | VNum z => VNum z
  | VStr s => signed s
  | VArr (first :: _) => parseInt first
  | _ => VNaN
  end.

(** A value used as a property name. *)
Definition key_of (v : value) : option string :=
  match v with VStr s => Some s | _ => None end.

End JS.
Export JS.

(* ===================================================================== *)
(** ** Errors *)
(* ===================================================================== *)

Module Errors.

(** What the ORM can fail with, as far as the adapter tells them apart. *)
Inductive orm_condition : Type :=
| UniqueConstraint
| ValidationFailed
| RecordNotFound
| OtherOrmError (name : string).

(** The classes of feathers-errors the adapter deals in, the
    [TypeError] of the JavaScript runtime, and untranslated ORM errors. *)
Inductive kind : Type :=
| NotFound
| BadRequest
| Conflict
| TypeError
| Orm (c : orm_condition).

(** An error object: its class and what it was built from (the id in
    [No record found for id '${id}'], a message, the ORM's error). *)
Record error : Type := Error { kind_of : kind; info : value }.

(** Modelled from the spec: [utils.errorHandler] of [src/utils.js], which
    is not among the sources.  "ORM-level unique/validation/not-found
    conditions are mapped to the generic error kinds (conflict, bad
    request, not found)"; any other error is passed on as it is.  The
    handler always throws, so it is a function from the error caught to
    the error the promise is rejected with. *)
Definition errorHandler (e : error) : error :=
  match kind_of e with
  | Orm UniqueConstraint => Error Conflict (info e)
  | Orm ValidationFailed => Error BadRequest (info e)
  | Orm RecordNotFound => Error NotFound (info e)
  | _ => e
  end.

End Errors.
Export Errors.

(* ===================================================================== *)
(** ** lodash.omit and feathers-query-filters *)
(* ===================================================================== *)

Module Lodash.

(** [omit(object, ...keys)]: a copy of the own properties without the
    given ones. *)
Definition omit (v : value) (keys : list string) : obj :=
  foldr delete (own v) keys.

End Lodash.
Export Lodash.

Module Filters.

Definition PROPERTIES : list string :=
  ["$sort"; "$limit"; "$skip"; "$select"; "$populate"].

(** [parse]: [Math.abs(parseInt(number, 10))] when the number is given. *)
Definition parse (number : value) : value :=
  if is_undefined number then VUndef else js_abs (parseInt number).

(** [getLimit]: with pagination settings that have a default, the
    requested limit (or the default) capped by [paginate.max];
    [Number.MAX_VALUE] is the cap when there is no numeric max. *)
Definition getLimit (limit paginate : value) : value :=
  if truthy paginate && truthy (prop paginate "default") then
    let lower := if is_number limit then limit else prop paginate "default" in
    if is_number (prop paginate "max")
    then js_min lower (prop paginate "max")
    else below_max_value lower
  else limit.

(** [convertSort]: the directions of a sort object parsed as integers;
    a direction that is an object is left as it is, and so is a sort
    that is not an object. *)
Definition convertSort (sort : value) : value :=
  match sort with
  | VObj o =>
      VObj ((λ d, match d with VObj _ | VArr _ | VNull => d | _ => parseInt d end) <$> o)
  | _ => sort
  end.

Record t : Type := {
  f_sort : value;      (* $sort *)
  f_limit : value;     (* $limit *)
  f_skip : value;      (* $skip *)
  f_select : value;    (* $select *)
  f_populate : value   (* $populate *)
}.

(** The default export of feathers-query-filters: [{ filters, query }]. *)
Definition filter (query paginate : value) : t * obj :=
  ({| f_sort := convertSort (prop query "$sort");
      f_limit := getLimit (parse (prop query "$limit")) paginate;
      f_skip := parse (prop query "$skip");
      f_select := prop query "$select";
      f_populate := prop query "$populate" |},
   omit query PROPERTIES).

End Filters.

(* ===================================================================== *)
(** ** feathers-commons: select *)
(* ===================================================================== *)

Module Commons.

(** [_.pick(source, ...keys)]: [result[key] = source[key]] for each key. *)
Definition pick (source : value) (keys : list value) : value :=
  VObj (foldl (λ (result : obj) key,
                 match key_of key with
                 | Some k => <[k := prop source k]> result
                 | None => result
                 end) ∅ keys).

(** [select(params, ...otherFields)] reads [params.query.$select]; only
    the query of [params] matters.  When [$select] is an array the
    library appends the other fields to it, in place, and returns the
    function that reduces every result (each item of an array result)
    to the fields of the array; otherwise results pass through.

    The two effects are modelled apart.  [select] is the function
    returned: it picks by the extended list, and a field appended more
    than once is picked as one.  [selecting] is the query as every
    holder of the array sees it once [select] has run. *)
Definition selecting (query : value) (otherFields : list string) : value :=
  match query with
  | VObj fields =>
      match fields !! "$select" with
      | Some (VArr listed) =>
          VObj (<["$select" := VArr (listed ++ (VStr <$> otherFields))]> fields)
      | _ => query
      end
  | _ => query
  end.

Definition select (query : value) (otherFields : list string) (result : value) : value :=
  match (if truthy query then prop query "$select" else query) with
  | VArr fields =>
      let fields := (fields ++ (VStr <$> otherFields))%list in
      match result with
      | VArr items => VArr ((λ item, pick item fields) <$> items)
      | _ => pick result fields
      end
  | _ => result
  end.

End Commons.
Export Commons.

(* ===================================================================== *)
(** ** The ORM as the adapter sees it *)
(* ===================================================================== *)

Module Orm.

Inductive outcome (A : Type) : Type :=
| Resolved (a : A)
| Rejected (e : error).
Arguments Resolved {A} a.
Arguments Rejected {A} e.

(** The calls the adapter makes on [this.Model] and on instances. *)
Inductive call : Type :=
| FindAndCount (q : obj)
| FindAll (q : obj)
| FindById (id : value) (options : obj)
| Create (data : value) (options : obj)
| BulkCreate (data : list value) (options : obj)
| Update (values : obj) (options : obj)
| Destroy (options : obj)
| InstanceUpdate (instance : value) (values : obj) (options : obj).

(** A Sequelize model over a database state [S].  [findById] gives
    [None] for JavaScript's [null]; [update] gives the pair
    [[affectedCount, affectedRows]]. *)
Record model (S : Type) : Type := {
  dialect : string;     (* Model.sequelize.options.dialect *)
  findAndCount : obj → S → outcome (Z * list value) * S;
  findAll : obj → S → outcome (list value) * S;
  findById : value → obj → S → outcome (option value) * S;
  create : value → obj → S → outcome value * S;
  bulkCreate : list value → obj → S → outcome (list value) * S;
  update : obj → obj → S → outcome (Z * list value) * S;
  destroy : obj → S → outcome Z * S;
  instance_update : value → obj → obj → S → outcome value * S
}.
Arguments dialect {S} _.
Arguments findAndCount {S} _ _ _.
Arguments findAll {S} _ _ _.
Arguments findById {S} _ _ _ _.
Arguments create {S} _ _ _ _.
Arguments bulkCreate {S} _ _ _ _.
Arguments update {S} _ _ _ _.
Arguments destroy {S} _ _ _.
Arguments instance_update {S} _ _ _ _ _.

(** An instance is represented by its data values. *)
Definition toJSON (instance : value) : value := instance.

(** The database together with the calls made on the model so far, oldest
    first. *)
Record World (S : Type) : Type := { db : S; calls : list call }.
Arguments db {S} _.
Arguments calls {S} _.

(** A promise is run against the world and settles. *)
Definition Promise (S A : Type) : Type := World S → outcome A * World S.

Section Promises.
Context {S : Type}.

Definition resolve {A} (a : A) : Promise S A := λ w, (Resolved a, w).
Definition reject {A} (e : error) : Promise S A := λ w, (Rejected e, w).

(** [p.then(f)] *)
Definition then_ {A B} (p : Promise S A) (f : A → Promise S B) : Promise S B :=
  λ w, match p w with
       | (Resolved a, w') => f a w'
       | (Rejected e, w') => (Rejected e, w')
       end.

(** [p.catch(h)] for a handler that throws what it makes of the error. *)
Definition catch_ {A} (p : Promise S A) (h : error → error) : Promise S A :=
  λ w, match p w with
       | (Resolved a, w') => (Resolved a, w')
       | (Rejected e, w') => (Rejected (h e), w')
       end.

(** A statement that throws once [p] has been started. *)
Definition then_throw {A B} (p : Promise S A) (e : error) : Promise S B :=
  λ w, (Rejected e, (p w).2).

(** A call on the model: recorded, then run on the database. *)
Definition invoke {A} (c : call) (op : S → outcome A * S) : Promise S A :=
  λ w, let '(r, s) := op (db w) in
       (r, {| db := s; calls := calls w ++ [c] |}).
End Promises.

End Orm.
Export Orm.

(* ===================================================================== *)
(** ** The service *)
(* ===================================================================== *)

(** The two helpers of [src/utils.js] that build ORM options.  The file
    is not among the sources and the specification does not describe
    them, so they are parameters of the development. *)
Class Utils : Type := {
  getWhere : value → value;   (* utils.getWhere(query) *)
  getOrder : value → value    (* utils.getOrder(filters.$sort) *)
}.

(** [params], as far as the adapter reads it; an absent property is
    [VUndef]. *)
Module Params.
Record t : Type := {
  query : value;
  sequelize : value;
  paginate : value;
  returning : value   (* params.$returning *)
}.
End Params.

(** The options the constructor receives. *)
Module Options.
Record t (S : Type) : Type := {
  Model : option (model S);
  paginate : value;
  id : option string;
  events : value;
  raw : value
}.
Arguments Model {S} _.
Arguments paginate {S} _.
Arguments id {S} _.
Arguments events {S} _.
Arguments raw {S} _.
End Options.

(** The fields of a [Service] object. *)
Module Service.
Record t (S : Type) : Type := {
  paginate : value;
  Model : model S;
  id : string;
  events : value;
  raw : bool
}.
Arguments paginate {S} _.
Arguments Model {S} _.
Arguments id {S} _.
Arguments events {S} _.
Arguments raw {S} _.
End Service.

Module Adapter.

(** [new Service(options)]; the two [throw]s of the constructor give the
    message on the left. *)
Definition init {S} (options : option (Options.t S)) : string + Service.t S :=
  match options with
  | None => inl "Sequelize options have to be provided"
  | Some options =>
      match Options.Model options with
      | None => inl "You must provide a Sequelize Model"
      | Some M =>
          inr {| Service.paginate := or_else (Options.paginate options) (VObj ∅);
                 Service.Model := M;
                 Service.id :=
                   match Options.id options with
                   | Some name => if String.eqb name "" then "id" else name
                   | None => "id"
                   end;
                 Service.events := Options.events options;
                 Service.raw := negb (is_false (Options.raw options)) |}
      end
  end.

(** What [_find] resolves with. *)
Module Page.
Record t : Type := {
  total : Z;
  limit : value;
  skip : value;
  data : list value
}.
End Page.

Definition page_object (page : Page.t) : value :=
  VObj (<["total" := VNum (Page.total page)]>
        (<["limit" := Page.limit page]>
         (<["skip" := Page.skip page]>
          (<["data" := VArr (Page.data page)]> ∅)))).

Definition not_found (id : value) : error := Error NotFound id.

Definition bad_request : error :=
  Error BadRequest (VStr "Not replacing multiple records. Did you mean `patch`?").

Definition type_error (what : string) : error := Error TypeError (VStr what).

Section Methods.
Context {S : Type} {utils : Utils} (this : Service.t S).

Definition _find (params : Params.t) (getFilter : value → Filters.t * obj)
  : Promise S Page.t :=
  let '(filters, query) := getFilter (or_else (Params.query params) (VObj ∅)) in
  let where_ := getWhere (VObj query) in
  let order := getOrder (Filters.f_sort filters) in
  let q := assign (<["where" := where_]>
                   (<["order" := order]>
                    (<["limit" := Filters.f_limit filters]>
                     (<["offset" := Filters.f_skip filters]>
                      (<["raw" := VBool (Service.raw this)]> ∅)))))
                  (Params.sequelize params) in
  let q := if truthy (Filters.f_select filters)
           then <["attributes" := Filters.f_select filters]> q else q in
  catch_
    (then_ (invoke (FindAndCount q) (findAndCount (Service.Model this) q))
       (λ result, resolve {| Page.total := result.1;
                             Page.limit := Filters.f_limit filters;
                             Page.skip := or_else (Filters.f_skip filters) (VNum 0);
                             Page.data := result.2 |}))
    errorHandler.

(** [paginate.default] is read after [_find] has been called; on
    [null] (or [undefined]) that read throws. *)
Definition find (params : Params.t) : Promise S value :=
  let paginate := if negb (is_undefined (Params.paginate params))
                  then Params.paginate params else Service.paginate this in
  let result := _find params (λ query, Filters.filter query paginate) in
  match paginate with
  | VNull | VUndef =>
      then_throw result (type_error "Cannot read property 'default'")
  | _ =>
      if negb (truthy (prop paginate "default"))
      then then_ result (λ page, resolve (VArr (Page.data page)))
      else then_ result (λ page, resolve (page_object page))
  end.

Definition _get (id : value) (params : Params.t) : Promise S value :=
  let promise :=
    if truthy (Params.sequelize params)
       && truthy (prop (Params.sequelize params) "include")
    then
      let where_ := getWhere (Params.query params) in
      let q := assign (<["where" := VObj (assign (<["id" := id]> ∅) where_)]> ∅)
                      (Params.sequelize params) in
      then_ (invoke (FindAll q) (findAll (Service.Model this) q))
        (λ result, match result with
                   | [] => reject (not_found id)
                   | first :: _ => resolve first
                   end)
    else
      let options := assign (<["raw" := VBool (Service.raw this)]> ∅)
                            (Params.sequelize params) in
      then_ (invoke (FindById id options) (findById (Service.Model this) id options))
        (λ instance, match instance with
                     | None => reject (not_found id)
                     | Some instance => resolve instance
                     end)
  in
  catch_
    (then_ promise
       (λ r, resolve (select (Params.query params) [Service.id this] r)))
    errorHandler.

Definition _getOrFind (id : value) (params : Params.t) : Promise S value :=
  if is_null id
  then then_ (_find params (λ query, Filters.filter query VUndef))
             (λ page, resolve (VArr (Page.data page)))
  else _get id params.

Definition get (id : value) (params : Params.t) : Promise S value :=
  then_ (_get id params)
    (λ r, resolve (select (Params.query params) [Service.id this] r)).

(** The two arms are the one promise chain of the source, for
    [isArray] true and false. *)
Definition create (data : value) (params : Params.t) : Promise S value :=
  let options := assign (<["raw" := VBool (Service.raw this)]> ∅)
                        (Params.sequelize params) in
  let sel := select (Params.query params) [Service.id this] in
  match data with
  | VArr items =>
      catch_
        (then_ (invoke (BulkCreate items options)
                       (bulkCreate (Service.Model this) items options))
           (λ result,
              if is_false (prop (VObj options) "raw") then resolve (VArr result)
              else resolve (VArr ((λ item, sel (toJSON item)) <$> result))))
        errorHandler
  | _ =>
      catch_
        (then_ (invoke (Create data options)
                       (Orm.create (Service.Model this) data options))
           (λ result,
              if is_false (prop (VObj options) "raw") then resolve result
              else resolve (sel (toJSON result))))
        errorHandler
  end.

(** [params] once [select(params, this.id)] has been evaluated.  In
    [patch] and [remove] the promise chain ends in
    [.then(select(params, this.id))], whose argument is evaluated while
    the chain is built: after [_find] has put [params.query.$select]
    into the options of [findAndCount] and called it, and before
    Sequelize, whose query methods do their work in a later turn, reads
    those options.  The array is one and the same, so the query asks
    for the selected fields and for the id field. *)
Definition after_select (params : Params.t) : Params.t :=
  {| Params.query := selecting (Params.query params) [Service.id this];
     Params.sequelize := Params.sequelize params;
     Params.paginate := Params.paginate params;
     Params.returning := Params.returning params |}.

(** [where] of [patch] and [remove]: the query without the filter
    properties, and the id under [this.id] unless it is [null]. *)
Definition target (id : value) (params : Params.t) : obj :=
  let where_ := assign ∅ (VObj (Filters.filter (or_else (Params.query params) (VObj ∅)) VUndef).2) in
  if negb (is_null id) then <[Service.id this := id]> where_ else where_.

Definition patch (id data : value) (params : Params.t) : Promise S value :=
  let where_ := target id params in
  let mapIds (page : Page.t) : list value :=
    (λ current, prop current (Service.id this)) <$> Page.data page in
  let options := assign (assign ∅ (Params.sequelize params))
                        (VObj (<["where" := VObj where_]> ∅)) in
  if String.eqb (dialect (Service.Model this)) "postgres"
     && negb (is_false (Params.returning params))
  then
    let options := <["returning" := VBool true]> options in
    let values := omit data [Service.id this] in
    catch_
      (then_
         (then_ (invoke (Update values options)
                        (update (Service.Model this) values options))
            (λ results,
               if is_null id then resolve (VArr results.2)
               else match results.2 with
                    | [] => reject (not_found id)
                    | first :: _ => resolve first
                    end))
         (λ r, resolve (select (Params.query params) [Service.id this] r)))
      errorHandler
  else
    let ids : Promise S (list value) :=
      if is_null id
      then then_ (_find (after_select params) (λ query, Filters.filter query VUndef))
                 (λ page, resolve (mapIds page))
      else resolve [id] in
    catch_
      (then_
         (then_ ids
            (λ idList,
               let findParams :=
                 {| Params.query :=
                      VObj (<[Service.id this :=
                                VObj (<["$in" := VArr idList]> ∅)]> ∅);
                    Params.sequelize := Params.sequelize params;
                    Params.paginate := Params.paginate params;
                    Params.returning := Params.returning params |} in
               let values := omit data [Service.id this] in
               then_ (invoke (Update values options)
                             (update (Service.Model this) values options))
                 (λ _, if negb (is_false (Params.returning params))
                       then _getOrFind id findParams
                       else resolve (VArr []))))
         (λ r, resolve (select (Params.query params) [Service.id this] r)))
      errorHandler.

(** The object [update] hands to [instance.update]: for each key of
    the instance's data, [null] when [data[key]] is undefined and
    [data[key]] otherwise.  Reading [data[key]] throws when [data] is
    [null] or [undefined] and there is a key to read.  On data that is
    neither an object nor an array every key reads as undefined (the
    indices and the length of a string are not modelled). *)
Definition replacement (data : value) (current : obj) : error + obj :=
  match data with
  | VNull | VUndef =>
      if decide (current = ∅) then inr ∅
      else inl (type_error "Cannot read property of null or undefined")
  | _ =>
      inr (map_imap (λ key _,
                       Some (if is_undefined (prop data key) then VNull
                             else prop data key)) current)
  end.

Definition update (id data : value) (params : Params.t) : Promise S value :=
  let options := assign (<["raw" := VBool (Service.raw this)]> ∅)
                        (Params.sequelize params) in
  if isArray data then reject bad_request
  else
    let forced : obj := <["raw" := VBool false]> ∅ in
    catch_
      (then_
         (then_ (invoke (FindById id forced)
                        (findById (Service.Model this) id forced))
            (λ instance,
               match instance with
               | None => reject (not_found id)
               | Some instance =>
                   match replacement data (own (toJSON instance)) with
                   | inl e => reject e
                   | inr copy =>
                       then_ (invoke (InstanceUpdate instance copy options)
                                     (instance_update (Service.Model this)
                                        instance copy options))
                         (λ instance,
                            if is_false (prop (VObj options) "raw")
                            then resolve instance
                            else resolve (toJSON instance))
                   end
               end))
         (λ r, resolve (select (Params.query params) [Service.id this] r)))
      errorHandler.

(** [opts] is [params] with a [raw] property added; [_getOrFind] reads
    only [query] and [sequelize] from it, and its query is the query of
    [params], the array of [$select] included. *)
Definition remove (id : value) (params : Params.t) : Promise S value :=
  let opts := after_select params in
  let where_ := target id params in
  let options := assign (assign ∅ (Params.sequelize params))
                        (VObj (<["where" := VObj where_]> ∅)) in
  if negb (is_false (Params.returning params))
  then
    catch_
      (then_
         (then_ (_getOrFind id opts)
            (λ data,
               then_ (invoke (Destroy options) (destroy (Service.Model this) options))
                     (λ _, resolve data)))
         (λ r, resolve (select (Params.query params) [Service.id this] r)))
      errorHandler
  else
    catch_
      (then_
         (then_ (invoke (Destroy options) (destroy (Service.Model this) options))
                (λ _, resolve (VArr [])))
         (λ r, resolve (select (Params.query params) [Service.id this] r)))
      errorHandler.
End Methods.

End Adapter.

(* ===================================================================== *)
(** ** An in-memory model *)
(* ===================================================================== *)

(** A reference implementation of the model interface, after Sequelize
    on SQLite: one table with its columns, kept as the list of its rows
    in insertion order, with a primary key that is filled from a counter
    when a new row does not bring one.  A where clause is an object of
    conditions on fields: a value to be equal to, an array of admissible
    values, or an object of the operators [$in], [$nin] ([$notIn]),
    [$ne] ([$not]), [$gt], [$gte], [$lt] and [$lte]; other operators,
    [$or] among them, are not modelled and match nothing.  [order] is a
    list of pairs of a field and [ASC] or [DESC].  [include] and the
    [raw] of queries are not interpreted: rows come back as plain
    objects. *)
Module Mem.

Record DB : Type := { columns : list string; rows : list obj; serial : Z }.

(** The integer that a string writes in decimal. *)
Fixpoint digits_only (s : string) : bool :=
  match s with
  | EmptyString => true
  | String c s' => match digit c with Some _ => digits_only s' | None => false end
  end.

Definition natural (s : string) : option Z :=
  match s with
  | EmptyString => None
  | String "0"%char EmptyString => Some 0
  | String "0"%char _ => None
  | _ => if digits_only s then leading s None else None
  end.

Definition numeral (s : string) : option Z :=
  match s with
  | String "-"%char s' =>
      match natural s' with
      | Some 0 | None => None
      | Some n => Some (- n)
      end
  | _ => natural s
  end.

(** What SQL compares: a string that writes an integer stands for that
    integer, as it does beside a numeric column. *)
Definition literal (v : value) : value :=
  match v with
  | VStr s => match numeral s with Some z => VNum z | None => v end
  | _ => v
  end.

(** SQL equality of a stored value and a literal; [null] is compared
    with [IS NULL]. *)
Definition same (a b : value) : bool :=
  match literal a, literal b with
  | VNull, VNull => true
  | VBool x, VBool y => Bool.eqb x y
  | VNum x, VNum y => Z.eqb x y
  | VStr x, VStr y => String.eqb x y
  | _, _ => false
  end.

(** How a stored value compares with a literal, when both are numbers or
    both are text. *)
Definition compare (a b : value) : option comparison :=
  match literal a, literal b with
  | VNum x, VNum y => Some (x ?= y)
  | VStr x, VStr y => Some (String.compare x y)
  | _, _ => None
  end.

Definition among (field : value) (admissible : value) : bool :=
  match admissible with
  | VArr l => existsb (same field) l
  | _ => false
  end.

(** A comparison with a field that is [NULL] is not true, except
    [IS NULL] and [IS NOT NULL]. *)
Definition operator (op : string) (arg field : value) : bool :=
  if String.eqb op "$in" then among field arg
  else if String.eqb op "$nin" || String.eqb op "$notIn"
  then isArray arg && negb (is_null field) && negb (among field arg)
  else if String.eqb op "$ne" || String.eqb op "$not"
  then if is_null arg then negb (is_null field)
       else negb (is_null field) && negb (same field arg)
  else if String.eqb op "$gt"
  then match compare field arg with Some Gt => true | _ => false end
  else if String.eqb op "$gte"
  then match compare field arg with Some Gt | Some Eq => true | _ => false end
  else if String.eqb op "$lt"
  then match compare field arg with Some Lt => true | _ => false end
  else if String.eqb op "$lte"
  then match compare field arg with Some Lt | Some Eq => true | _ => false end
  else false.

Definition holds (condition field : value) : bool :=
  match condition with
  | VObj ops => bool_decide (map_Forall (λ op arg, operator op arg field = true) ops)
  | VArr _ => among field condition
  | _ => same field condition
  end.

(** Without a where clause every row matches. *)
Definition matches (where_ : value) (row : obj) : bool :=
  match where_ with
  | VObj conditions =>
      bool_decide (map_Forall (λ k c, holds c (prop (VObj row) k) = true) conditions)
  | _ => true
  end.

(** [ORDER BY]: [NULL] comes first, then the numbers, then the text. *)
Definition precedes (a b : value) : bool :=
  match a, b with
  | VNum x, VNum y => x <=? y
  | VStr x, VStr y => match String.compare x y with Gt => false | _ => true end
  | VStr _, VNum _ => false
  | VNum _, VStr _ => true
  | (VNum _ | VStr _), _ => false
  | _, _ => true
  end.

(** The fields to order by, each with whether it is descending. *)
Definition directions (order : value) : list (string * bool) :=
  match order with
  | VArr pairs =>
      omap (λ pair, match pair with
                    | VArr [VStr name; VStr direction] =>
                        Some (name, String.eqb direction "DESC")
                    | _ => None
                    end) pairs
  | _ => []
  end.

(** [a] is not to come after [b]. *)
Fixpoint no_later (keys : list (string * bool)) (a b : obj) : bool :=
  match keys with
  | [] => true
  | (name, descending) :: keys =>
      let x := prop (VObj (if descending then b else a)) name in
      let y := prop (VObj (if descending then a else b)) name in
      if precedes x y && negb (precedes y x) then true
      else if precedes y x && negb (precedes x y) then false
      else no_later keys a b
  end.

Fixpoint place (keys : list (string * bool)) (row : obj) (sorted : list obj)
  : list obj :=
  match sorted with
  | [] => [row]
  | next :: rest =>
      if no_later keys row next then row :: next :: rest
      else next :: place keys row rest
  end.

(** The rows in the order asked for; rows that compare alike stay in
    table order. *)
Definition arrange (order : value) (l : list obj) : list obj :=
  foldr (place (directions order)) [] l.

(** [offset] and [limit], when they are numbers. *)
Definition window (offset limit : value) (l : list obj) : list obj :=
  let l := match offset with
           | VNum n => drop (Z.to_nat n) l
           | _ => l
           end in
  match limit with
  | VNum n => take (Z.to_nat n) l
  | _ => l
  end.

(** [attributes], when it is an array: the listed columns of the row. *)
Definition project (attributes : value) (row : obj) : obj :=
  match attributes with
  | VArr fields =>
      filter (λ kv : string * value, Some kv.1 ∈ key_of <$> fields) row
  | _ => row
  end.

Definition selected (where_ : value) (db : DB) : list obj :=
  filter (λ row, matches where_ row = true) (rows db).

(** The rows a find query gives. *)
Definition found (q : obj) (db : DB) : list value :=
  (λ row, VObj (project (prop (VObj q) "attributes") row))
    <$> window (prop (VObj q) "offset") (prop (VObj q) "limit")
          (arrange (prop (VObj q) "order") (selected (prop (VObj q) "where") db)).

Definition mem_findAndCount (q : obj) (db : DB) : outcome (Z * list value) * DB :=
  (Resolved (Z.of_nat (length (selected (prop (VObj q) "where") db)), found q db), db).

Definition mem_findAll (q : obj) (db : DB) : outcome (list value) * DB :=
  (Resolved (found q db), db).

(** What is written for a value: SQL has no [undefined], it is written
    as [NULL]. *)
Definition stored (v : value) : value := if is_undefined v then VNull else v.

(** A row of the table made of the given fields: it has every column,
    with [NULL] where nothing is given, and nothing else. *)
Definition fit (columns : list string) (fields : obj) : obj :=
  list_to_map ((λ column, (column, stored (prop (VObj fields) column))) <$> columns).

(** The values an update writes: those given for a column. *)
Definition writable (columns : list string) (values : obj) : obj :=
  stored <$> filter (λ kv : string * value, kv.1 ∈ columns) values.

Section Table.
Variable pk : string.

Definition has_key (id : value) (row : obj) : bool :=
  same (prop (VObj row) pk) id.

Definition mem_findById (id : value) (options : obj) (db : DB)
  : outcome (option value) * DB :=
  (Resolved (VObj <$> List.find (has_key id) (rows db)), db).

(** The instance that is built from the data: the properties given and
    the key, which comes from the counter when the data has none. *)
Definition built (data : value) (db : DB) : obj :=
  if is_undefined (prop data pk) || is_null (prop data pk)
  then <[pk := VNum (serial db)]> (own data)
  else own data.

(** A new row.  A key that is already in the table violates the unique
    constraint.  The promise resolves with the instance, which holds
    what was given, not what the other columns hold in the table. *)
Definition mem_create (data : value) (options : obj) (db : DB)
  : outcome value * DB :=
  let instance := built data db in
  let next := if is_undefined (prop data pk) || is_null (prop data pk)
              then serial db + 1 else serial db in
  if existsb (has_key (prop (VObj instance) pk)) (rows db)
  then (Rejected (Error (Orm UniqueConstraint) (prop (VObj instance) pk)), db)
  else (Resolved (VObj instance),
        {| columns := columns db;
           rows := rows db ++ [fit (columns db) instance];
           serial := next |}).

(** All the rows or, when one of them fails, none. *)
Fixpoint insert_all (items : list value) (options : obj) (db : DB)
  : outcome (list value) * DB :=
  match items with
  | [] => (Resolved [], db)
  | item :: items =>
      match mem_create item options db with
      | (Resolved row, db') =>
          match insert_all items options db' with
          | (Resolved created, db'') => (Resolved (row :: created), db'')
          | (Rejected e, db'') => (Rejected e, db'')
          end
      | (Rejected e, db') => (Rejected e, db')
      end
  end.

(** [bulkCreate] inserts the rows as [create] does one by one, but the
    instances it resolves with are built from the items alone: the keys
    that the database generated are not reported, and the key of such
    an instance is [null]. *)
Definition mem_bulkCreate (items : list value) (options : obj) (db : DB)
  : outcome (list value) * DB :=
  match insert_all items options db with
  | (Resolved _, db') =>
      (Resolved ((λ item,
                    VObj (if is_undefined (prop item pk) || is_null (prop item pk)
                          then <[pk := VNull]> (own item) else own item)) <$> items),
       db')
  | (Rejected e, _) => (Rejected e, db)
  end.

(** [UPDATE ... SET values WHERE where], with the affected rows as
    they are after the update when [returning] is set. *)
Definition mem_update (values : obj) (options : obj) (db : DB)
  : outcome (Z * list value) * DB :=
  let hit row := matches (prop (VObj options) "where") row in
  let written := writable (columns db) values in
  let affected := selected (prop (VObj options) "where") db in
  (Resolved (Z.of_nat (length affected),
             if truthy (prop (VObj options) "returning")
             then (λ row, VObj (written ∪ row)) <$> affected
             else []),
   {| columns := columns db;
      rows := (λ row, if hit row then written ∪ row else row) <$> rows db;
      serial := serial db |}).

Definition mem_destroy (options : obj) (db : DB) : outcome Z * DB :=
  let hit row := matches (prop (VObj options) "where") row in
  (Resolved (Z.of_nat (length (selected (prop (VObj options) "where") db))),
   {| columns := columns db;
      rows := filter (λ row, hit row = false) (rows db);
      serial := serial db |}).

(** [instance.update(values, options)] sets the values on the instance
    and saves what has changed.  With [raw] in the options the values
    are put on the instance as they are, the key too, and are not
    marked as changed: nothing is saved.  Without it the values of the
    columns are set, except the primary key, and saved to the row of
    the instance. *)
Definition mem_instance_update (instance : value) (values options : obj) (db : DB)
  : outcome value * DB :=
  if truthy (prop (VObj options) "raw")
  then (Resolved (VObj (values ∪ own instance)), db)
  else
    let key := prop instance pk in
    let revised (row : obj) : obj := writable (columns db) (delete pk values) ∪ row in
    (Resolved (VObj (revised (own instance))),
     {| columns := columns db;
        rows := (λ row, if has_key key row then revised row else row) <$> rows db;
        serial := serial db |}).

Definition model (sql : string) : Orm.model DB :=
  {| Orm.dialect := sql;
     Orm.findAndCount := mem_findAndCount;
     Orm.findAll := mem_findAll;
     Orm.findById := mem_findById;
     Orm.create := mem_create;
     Orm.bulkCreate := mem_bulkCreate;
     Orm.update := mem_update;
     Orm.destroy := mem_destroy;
     Orm.instance_update := mem_instance_update |}.
End Table.

(** Modelled from the spec: "translates filter into {where, order,
    limit, offset}".  The where clause is the query's conditions as
    they are, and the order lists every field of [$sort] with [ASC]
    for the direction 1 and [DESC] for any other; the fields come in
    the order of the map, not in the order the sort object was written
    in. *)
Definition utils : Utils :=
  {| getWhere := λ query, query;
     getOrder := λ sort,
       VArr ((λ kd : string * value,
                VArr [VStr kd.1;
                      VStr (match parseInt kd.2 with
                            | VNum 1 => "ASC"
                            | _ => "DESC"
                            end)])
               <$> map_to_list (own sort)) |}.

(** A service on the in-memory model. *)
Definition service (pk sql id : string) (paginate : value) (raw : bool)
  : Service.t DB :=
  {| Service.paginate := paginate;
     Service.Model := model pk sql;
     Service.id := id;
     Service.events := VUndef;
     Service.raw := raw |}.

End Mem.

(* ===================================================================== *)
(** ** Vocabulary of the statements *)
(* ===================================================================== *)

(** Every call a promise makes on the model satisfies [P]. *)
Definition emits {S A} (P : call → Prop) (p : Promise S A) : Prop :=
  ∀ w, ∃ new, calls (p w).2 = calls w ++ new ∧ Forall P new.

(** The database after the promise is related to the one before. *)
Definition keeps {S A} (R : S → S → Prop) (p : Promise S A) : Prop :=
  ∀ w, R (db w) (db (p w).2).

(** A call that cannot change what the rows hold under [name]: a read, or
    an update whose values have no such property. *)
Definition leaves (name : string) (c : call) : Prop :=
  match c with
  | FindAndCount _ | FindAll _ | FindById _ _ => True
  | Update values _ => values !! name = None
  | Create _ _ | BulkCreate _ _ | Destroy _ | InstanceUpdate _ _ _ => False
  end.

(** What the rows of a table hold under [name], row by row. *)
Definition column (name : string) (db : Mem.DB) : list (option value) :=
  (λ row : obj, row !! name) <$> Mem.rows db.

Definition same_column (name : string) (before after : Mem.DB) : Prop :=
  column name after = column name before.

(** The promise was rejected with an error of class [k]. *)
Definition rejects {S A} (k : kind) (r : outcome A * World S) : Prop :=
  ∃ e, r.1 = Rejected e ∧ kind_of e = k.

(** An id that names one record: a number or a string. *)
Definition is_key (id : value) : bool :=
  match id with VNum _ | VStr _ => true | _ => false end.

(** [params.sequelize && params.sequelize.include]: eager loading. *)
Definition eager (params : Params.t) : bool :=
  truthy (Params.sequelize params)
  && truthy (prop (Params.sequelize params) "include").

(** The name of the method a call is on. *)
Definition method (c : call) : string :=
  match c with
  | FindAndCount _ => "findAndCount"
  | FindAll _ => "findAll"
  | FindById _ _ => "findById"
  | Create _ _ => "create"
  | BulkCreate _ _ => "bulkCreate"
  | Update _ _ => "update"
  | Destroy _ => "destroy"
  | InstanceUpdate _ _ _ => "instance.update"
  end.

(** What [create] makes of an instance the ORM gives back: the instance
    itself when [options.raw] is [false], and otherwise its data reduced
    to the selected fields. *)
Definition shaped {S} (this : Service.t S) (params : Params.t) (instance : value)
  : value :=
  if is_false (prop (VObj (assign (<["raw" := VBool (Service.raw this)]> ∅)
                                  (Params.sequelize params))) "raw")
  then instance
  else select (Params.query params) [Service.id this] (toJSON instance).

(** The options [_find] calls [findAndCount] with. *)
Definition find_options {S} {utils : Utils} (this : Service.t S)
    (params : Params.t) (getFilter : value → Filters.t * obj) : obj :=
  let '(filters, query) := getFilter (or_else (Params.query params) (VObj ∅)) in
  let q := assign (<["where" := getWhere (VObj query)]>
                   (<["order" := getOrder (Filters.f_sort filters)]>
                    (<["limit" := Filters.f_limit filters]>
                     (<["offset" := Filters.f_skip filters]>
                      (<["raw" := VBool (Service.raw this)]> ∅)))))
                  (Params.sequelize params) in
  if truthy (Filters.f_select filters)
  then <["attributes" := Filters.f_select filters]> q else q.

(** [params.sequelize] sets none of the options that decide which rows a
    find gives. *)
Definition unset (sequelize : value) (k : string) : bool :=
  match own sequelize !! k with None => true | Some _ => false end.

Definition untouched (sequelize : value) : bool :=
  unset sequelize "where" && unset sequelize "order" && unset sequelize "limit"
  && unset sequelize "offset" && unset sequelize "attributes".

(** The conditions of a query: the query without the filter properties. *)
Definition conditions (params : Params.t) : obj :=
  (Filters.filter (or_else (Params.query params) (VObj ∅)) VUndef).2.

(** The order [_find] asks for: [utils.getOrder] of the query's [$sort]
    with its directions parsed. *)
Definition ordering {utils : Utils} (params : Params.t) : value :=
  getOrder (Filters.convertSort (prop (or_else (Params.query params) (VObj ∅)) "$sort")).

(** The query asks for no [$limit] and no [$skip]. *)
Definition unwindowed (query : value) : bool :=
  is_undefined (prop query "$limit") && is_undefined (prop query "$skip").

(** [name] is not the name of a filter property. *)
Definition field_name (name : string) : bool :=
  negb (existsb (String.eqb name) Filters.PROPERTIES).

(** Every row has a number or a string under [name], and no two rows the
    same one. *)
Fixpoint keyed (name : string) (rows : list obj) : bool :=
  match rows with
  | [] => true
  | row :: rest =>
      is_key (prop (VObj row) name)
      && negb (existsb (λ other, Mem.same (prop (VObj other) name)
                                          (prop (VObj row) name)) rest)
      && keyed name rest
  end.

(** [utils.getWhere] gives a where clause that the model reads as the
    conditions it was given, and [utils.getOrder] asks for no order
    when there is no [$sort]. *)
Definition transparent (utils : Utils) : Prop :=
  (∀ (query row : obj),
     Mem.matches (getWhere (VObj query)) row = Mem.matches (VObj query) row)
  ∧ Mem.directions (getOrder VUndef) = [].

(** The filter [_find] uses when it is given none: no pagination
    settings. *)
Abbreviation plain := (λ query : value, Filters.filter query VUndef).

(** A row after [patch]: what the data gives for the columns, except
    for the id field, laid over it. *)
Definition patched_row (columns : list string) (name : string) (data : value)
    (row : obj) : obj :=
  Mem.writable columns (omit data [name]) ∪ row.

(** The options [patch] gives to [update] and [remove] to [destroy]. *)
Definition write_options {S} (this : Service.t S) (id : value) (params : Params.t)
  : obj :=
  assign (assign ∅ (Params.sequelize params))
         (VObj (<["where" := VObj (Adapter.target this id params)]> ∅)).

(** [findParams] of the generic [patch]: the query asks for the ids. *)
Definition re_query (name : string) (ids : list value) (params : Params.t)
  : Params.t :=
  {| Params.query := VObj (<[name := VObj (<["$in" := VArr ids]> ∅)]> ∅);
     Params.sequelize := Params.sequelize params;
     Params.paginate := Params.paginate params;
     Params.returning := Params.returning params |}.

(** The table after the [update] of a [patch], and after the [destroy]
    of a [remove]. *)
Definition updated (this : Service.t Mem.DB) (id data : value) (params : Params.t)
    (db : Mem.DB) : Mem.DB :=
  {| Mem.columns := Mem.columns db;
     Mem.rows :=
       (λ row, if Mem.matches (VObj (Adapter.target this id params)) row
               then patched_row (Mem.columns db) (Service.id this) data row
               else row)
         <$> Mem.rows db;
     Mem.serial := Mem.serial db |}.

Definition removed (this : Service.t Mem.DB) (id : value) (params : Params.t)
    (db : Mem.DB) : Mem.DB :=
  {| Mem.columns := Mem.columns db;
     Mem.rows :=
       filter (λ row, Mem.matches (VObj (Adapter.target this id params)) row = false)
              (Mem.rows db);
     Mem.serial := Mem.serial db |}.

(** A value SQL compares with: [null], a boolean, a number or a
    string. *)
Definition scalar (v : value) : bool :=
  match v with VNull | VBool _ | VNum _ | VStr _ => true | _ => false end.

(** An operator that the in-memory model knows, with an argument of its
    kind. *)
Definition operand (op : string) (arg : value) : bool :=
  if existsb (String.eqb op) ["$in"; "$nin"; "$notIn"]
  then match arg with VArr l => forallb scalar l | _ => false end
  else if existsb (String.eqb op) ["$ne"; "$not"; "$gt"; "$gte"; "$lt"; "$lte"]
  then scalar arg
  else false.

Definition condition (c : value) : bool :=
  match c with
  | VObj ops => bool_decide (map_Forall (λ op arg, operand op arg = true) ops)
  | VArr l => forallb scalar l
  | _ => scalar c
  end.



(** The pagination settings [find] goes by: those of the call when it
    has any, else those of the service. *)
Definition settings {S} (this : Service.t S) (params : Params.t) : value :=
  if negb (is_undefined (Params.paginate params))
  then Params.paginate params else Service.paginate this.

(** [Object.assign({ raw: this.raw }, params.sequelize)]: the options of
    [findById], [create], [bulkCreate] and [instance.update]. *)
Definition read_options {S} (this : Service.t S) (params : Params.t) : obj :=
  assign (<["raw" := VBool (Service.raw this)]> ∅) (Params.sequelize params).

(** The options of the [findAll] that [_get] makes with eager loading. *)
Definition eager_options {utils : Utils} (id : value) (params : Params.t) : obj :=
  assign (<["where" := VObj (assign (<["id" := id]> ∅)
                                    (getWhere (Params.query params)))]> ∅)
         (Params.sequelize params).

(** The options [update] looks the instance up with. *)
Definition forced : obj := <["raw" := VBool false]> ∅.

(** A call that reads. *)
Definition reads (c : call) : Prop :=
  match c with
  | FindAndCount _ | FindAll _ | FindById _ _ => True
  | _ => False
  end.

(** The same service and the same params under other pagination
    settings. *)
Definition with_paginate {S} (paginate : value) (this : Service.t S) : Service.t S :=
  {| Service.paginate := paginate;
     Service.Model := Service.Model this;
     Service.id := Service.id this;
     Service.events := Service.events this;
     Service.raw := Service.raw this |}.

Definition paginated (paginate : value) (params : Params.t) : Params.t :=
  {| Params.query := Params.query params;
     Params.sequelize := Params.sequelize params;
     Params.paginate := paginate;
     Params.returning := Params.returning params |}.

(** *** A small table to run the service on *)

Module Example.

Definition task (id : Z) (name status : string) : obj :=
  <["id" := VNum id]> (<["name" := VStr name]> (<["status" := VStr status]> ∅)).

Definition table : Mem.DB :=
  {| Mem.columns := ["id"; "name"; "status"];
     Mem.rows := [task 1 "write" "open"; task 2 "review" "open"; task 3 "ship" "done"];
     Mem.serial := 4 |}.

Definition world : World Mem.DB := {| db := table; calls := [] |}.

(** A service on the table, keyed by [id], without pagination. *)
Definition tasks (sql : string) : Service.t Mem.DB :=
  Mem.service "id" sql "id" (VObj ∅) true.

Definition params (query sequelize returning : value) : Params.t :=
  {| Params.query := query;
     Params.sequelize := sequelize;
     Params.paginate := VUndef;
     Params.returning := returning |}.

(** A table whose primary key is [uuid], and a service told so. *)
Definition member (uuid name : string) : obj :=
  <["uuid" := VStr uuid]> (<["name" := VStr name]> ∅).

Definition members : World Mem.DB :=
  {| db := {| Mem.columns := ["uuid"; "name"];
              Mem.rows := [member "a1" "ada"; member "b2" "bob"];
              Mem.serial := 1 |};
     calls := [] |}.

Definition people : Service.t Mem.DB :=
  Mem.service "uuid" "sqlite" "uuid" (VObj ∅) true.

(** A model whose database cannot be reached: every call is rejected
    with the ORM's error. *)
Definition unreachable : error :=
  Error (Orm (OtherOrmError "SequelizeConnectionError")) (VStr "connection refused").

Definition lost (sql : string) : Orm.model unit :=
  {| Orm.dialect := sql;
     Orm.findAndCount := λ _ s, (Rejected unreachable, s);
     Orm.findAll := λ _ s, (Rejected unreachable, s);
     Orm.findById := λ _ _ s, (Rejected unreachable, s);
     Orm.create := λ _ _ s, (Rejected unreachable, s);
     Orm.bulkCreate := λ _ _ s, (Rejected unreachable, s);
     Orm.update := λ _ _ s, (Rejected unreachable, s);
     Orm.destroy := λ _ s, (Rejected unreachable, s);
     Orm.instance_update := λ _ _ _ s, (Rejected unreachable, s) |}.

Definition down : Orm.model unit := lost "sqlite".

Definition offline : Service.t unit :=
  {| Service.paginate := VObj ∅;
     Service.Model := down;
     Service.id := "id";
     Service.events := VUndef;
     Service.raw := true |}.

(** The same on postgres. *)
Definition stalled : Service.t unit :=
  {| Service.paginate := VObj ∅;
     Service.Model := lost "postgres";
     Service.id := "id";
     Service.events := VUndef;
     Service.raw := true |}.

Definition nowhere : World unit := {| db := tt; calls := [] |}.

(** The table of tasks behind a connection that may only read: every
    write is rejected. *)
Definition read_only : error :=
  Error (Orm (OtherOrmError "SequelizeDatabaseError")) (VStr "permission denied").

Definition frozen : Orm.model Mem.DB :=
  {| Orm.dialect := "sqlite";
     Orm.findAndCount := Mem.mem_findAndCount;
     Orm.findAll := Mem.mem_findAll;
     Orm.findById := Mem.mem_findById "id";
     Orm.create := λ _ _ s, (Rejected read_only, s);
     Orm.bulkCreate := λ _ _ s, (Rejected read_only, s);
     Orm.update := λ _ _ s, (Rejected read_only, s);
     Orm.destroy := λ _ s, (Rejected read_only, s);
     Orm.instance_update := λ _ _ _ s, (Rejected read_only, s) |}.

Definition archive : Service.t Mem.DB :=
  {| Service.paginate := VObj ∅;
     Service.Model := frozen;
     Service.id := "id";
     Service.events := VUndef;
     Service.raw := true |}.

End Example.

(* ===================================================================== *)
(** ** Properties *)
(* ===================================================================== *)

Import Adapter.

#[local] Arguments prop : simpl never.
#[local] Arguments Mem.matches : simpl never.
#[local] Arguments omit : simpl never.
#[local] Arguments _find : simpl never.
#[local] Arguments _get : simpl never.
#[local] Arguments _getOrFind : simpl never.
#[local] Arguments find_options : simpl never.
#[local] Arguments select : simpl never.
#[local] Arguments Mem.found : simpl never.
#[local] Arguments Mem.selected : simpl never.
#[local] Arguments target : simpl never.

(** *** Promises *)

Section PromiseFacts.
Context {S : Type}.

Lemma emits_resolve {A} P (a : A) : emits (S := S) P (resolve a).
Proof. intros w. exists []. by rewrite app_nil_r. Qed.

Lemma emits_reject {A} P e : emits (S := S) (A := A) P (reject e).
Proof. intros w. exists []. by rewrite app_nil_r. Qed.

Lemma emits_invoke {A} (P : call → Prop) c (op : S → outcome A * S) :
  P c → emits P (invoke c op).
Proof.
  intros Hc w. exists [c]. unfold invoke.
  destruct (op (db w)) as [r s]. simpl. split; [done | by constructor].
Qed.

Lemma emits_then {A B} P (p : Promise S A) (f : A → Promise S B) :
  emits P p → (∀ a, emits P (f a)) → emits P (then_ p f).
Proof.
  intros Hp Hf w. unfold then_.
  destruct (Hp w) as (new & Hnew & HP).
  destruct (p w) as [[a | e] w1]; simpl in *.
  - destruct (Hf a w1) as (more & Hmore & HQ).
    exists (new ++ more). rewrite Hmore, Hnew, app_assoc.
    split; [done | by apply Forall_app].
  - by exists new.
Qed.

Lemma emits_catch {A} P (p : Promise S A) h : emits P p → emits P (catch_ p h).
Proof.
  intros Hp w. unfold catch_.
  destruct (Hp w) as (new & Hnew & HP).
  destruct (p w) as [[a | e] w1]; simpl in *; by exists new.
Qed.

Lemma keeps_resolve {A} (R : S → S → Prop) (a : A) :
  (∀ s, R s s) → keeps R (resolve a).
Proof. intros Hrefl w. apply Hrefl. Qed.

Lemma keeps_reject {A} (R : S → S → Prop) e :
  (∀ s, R s s) → keeps (A := A) R (reject e).
Proof. intros Hrefl w. apply Hrefl. Qed.

Lemma keeps_invoke {A} (R : S → S → Prop) c (op : S → outcome A * S) :
  (∀ s, R s (op s).2) → keeps R (invoke c op).
Proof.
  intros Hop w. unfold invoke. specialize (Hop (db w)).
  by destruct (op (db w)) as [r s].
Qed.

Lemma keeps_then {A B} (R : S → S → Prop) (p : Promise S A) (f : A → Promise S B) :
  (∀ a b c, R a b → R b c → R a c) →
  keeps R p → (∀ a, keeps R (f a)) → keeps R (then_ p f).
Proof.
  intros Htrans Hp Hf w. unfold then_. specialize (Hp w).
  destruct (p w) as [[a | e] w1]; simpl in *; [| done].
  eapply Htrans; [apply Hp | apply Hf].
Qed.

Lemma keeps_catch {A} (R : S → S → Prop) (p : Promise S A) h :
  keeps R p → keeps R (catch_ p h).
Proof.
  intros Hp w. unfold catch_. specialize (Hp w).
  by destruct (p w) as [[a | e] w1].
Qed.
End PromiseFacts.

(** *** Calls that only read, and updates that leave a column alone *)

Section Frame.
Context {S : Type} {utils : Utils} (this : Service.t S).

Lemma omit_lookup data name : omit data [name] !! name = None.
Proof. unfold omit. simpl. apply lookup_delete_eq. Qed.

Lemma emits_find name params getFilter :
  emits (leaves name) (_find this params getFilter).
Proof.
  unfold _find. destruct (getFilter _) as [filters query].
  apply emits_catch, emits_then; [by apply emits_invoke |].
  intros result. apply emits_resolve.
Qed.

Lemma emits_get name id params : emits (leaves name) (_get this id params).
Proof.
  unfold _get. apply emits_catch, emits_then; [| intros; apply emits_resolve].
  destruct (truthy _ && truthy _).
  - apply emits_then; [by apply emits_invoke |].
    intros [| first rest]; [apply emits_reject | apply emits_resolve].
  - apply emits_then; [by apply emits_invoke |].
    intros [instance |]; [apply emits_resolve | apply emits_reject].
Qed.

Lemma emits_getOrFind name id params :
  emits (leaves name) (_getOrFind this id params).
Proof.
  unfold _getOrFind. destruct (is_null id).
  - apply emits_then; [apply emits_find | intros; apply emits_resolve].
  - apply emits_get.
Qed.

Lemma emits_patch id data params :
  emits (leaves (Service.id this)) (patch this id data params).
Proof.
  unfold patch. destruct (String.eqb _ _ && negb _).
  - apply emits_catch, emits_then; [| intros; apply emits_resolve].
    apply emits_then; [apply emits_invoke, omit_lookup |].
    intros results. destruct (is_null id); [apply emits_resolve |].
    destruct results.2; [apply emits_reject | apply emits_resolve].
  - apply emits_catch, emits_then; [| intros; apply emits_resolve].
    apply emits_then.
    + destruct (is_null id); [| apply emits_resolve].
      apply emits_then; [apply emits_find | intros; apply emits_resolve].
    + intros idList. apply emits_then; [apply emits_invoke, omit_lookup |].
      intros _. destruct (negb _); [apply emits_getOrFind | apply emits_resolve].
Qed.
End Frame.

Section MemFrame.
Context {utils : Utils} (pk : string) (this : Service.t Mem.DB).
Hypothesis on_mem : ∃ sql, Service.Model this = Mem.model pk sql.

Lemma same_column_trans name a b c :
  same_column name a b → same_column name b c → same_column name a c.
Proof. unfold same_column. congruence. Qed.

Lemma writable_none columns (values : obj) name :
  values !! name = None → Mem.writable columns values !! name = None.
Proof.
  intros Hnone. unfold Mem.writable. rewrite lookup_fmap.
  rewrite map_lookup_filter, Hnone. done.
Qed.

Lemma mem_update_column name values options db :
  values !! name = None →
  same_column name db (Mem.mem_update values options db).2.
Proof.
  intros Hnone. unfold same_column, column. simpl.
  rewrite <- list_fmap_compose. apply list_fmap_ext.
  intros i row _. simpl. destruct (Mem.matches _ row); [| done].
  rewrite lookup_union_r; [done |]. by apply writable_none.
Qed.

Lemma keeps_find name params getFilter :
  keeps (same_column name) (_find this params getFilter).
Proof.
  destruct on_mem as [sql HM].
  unfold _find. destruct (getFilter _) as [filters query]. rewrite HM.
  apply keeps_catch, keeps_then; [apply same_column_trans | | ].
  - by apply keeps_invoke.
  - intros. by apply keeps_resolve.
Qed.

Lemma keeps_get name id params : keeps (same_column name) (_get this id params).
Proof.
  destruct on_mem as [sql HM].
  unfold _get. rewrite HM.
  apply keeps_catch, keeps_then;
    [apply same_column_trans | | by intros; apply keeps_resolve].
  destruct (truthy _ && truthy _).
  - apply keeps_then; [apply same_column_trans | by apply keeps_invoke |].
    intros [| first rest]; [by apply keeps_reject | by apply keeps_resolve].
  - apply keeps_then; [apply same_column_trans | by apply keeps_invoke |].
    intros [instance |]; [by apply keeps_resolve | by apply keeps_reject].
Qed.

Lemma keeps_getOrFind name id params :
  keeps (same_column name) (_getOrFind this id params).
Proof.
  unfold _getOrFind. destruct (is_null id).
  - apply keeps_then; [apply same_column_trans | apply keeps_find |].
    by intros; apply keeps_resolve.
  - apply keeps_get.
Qed.

Lemma keeps_patch id data params :
  keeps (same_column (Service.id this)) (patch this id data params).
Proof.
  pose proof on_mem as [sql HM].
  unfold patch. destruct (String.eqb _ _ && negb _).
  - apply keeps_catch, keeps_then;
      [apply same_column_trans | | by intros; apply keeps_resolve].
    apply keeps_then; [apply same_column_trans | |].
    + rewrite HM. apply keeps_invoke. intros s.
      apply mem_update_column, omit_lookup.
    + intros results. destruct (is_null id); [by apply keeps_resolve |].
      destruct results.2; [by apply keeps_reject | by apply keeps_resolve].
  - apply keeps_catch, keeps_then;
      [apply same_column_trans | | by intros; apply keeps_resolve].
    apply keeps_then; [apply same_column_trans | |].
    + destruct (is_null id); [| by apply keeps_resolve].
      apply keeps_then; [apply same_column_trans | apply keeps_find |].
      by intros; apply keeps_resolve.
    + intros idList. apply keeps_then; [apply same_column_trans | |].
      * rewrite HM. apply keeps_invoke. intros s.
        apply mem_update_column, omit_lookup.
      * intros _. destruct (negb _); [apply keeps_getOrFind | by apply keeps_resolve].
Qed.
End MemFrame.

(** *** The in-memory model: where clauses and keys *)

Section MemFacts.
Lemma matches_insert_holds k c (conditions row : obj) :
  Mem.matches (VObj (<[k := c]> conditions)) row = true →
  Mem.holds c (prop (VObj row) k) = true.
Proof.
  unfold Mem.matches. intros H%bool_decide_eq_true.
  apply (H k c). apply lookup_insert_eq.
Qed.

Lemma holds_key id field :
  is_key id = true → Mem.holds id field = Mem.same field id.
Proof. by destruct id. Qed.

Lemma is_key_not_null id : is_key id = true → is_null id = false.
Proof. by destruct id. Qed.

Lemma where_of_options (seq where_ : value) :
  prop (VObj (assign (assign ∅ seq) (VObj (<["where" := where_]> ∅)))) "where"
  = where_.
Proof.
  unfold assign, prop. simpl.
  rewrite lookup_union_l'; [| rewrite lookup_insert_eq; eauto].
  by rewrite lookup_insert_eq.
Qed.

Lemma where_of_returning (seq where_ : value) :
  prop (VObj (<["returning" := VBool true]>
                (assign (assign ∅ seq) (VObj (<["where" := where_]> ∅)))))
       "where" = where_.
Proof.
  unfold prop. rewrite lookup_insert_ne by done. apply where_of_options.
Qed.

Lemma selected_nil where_ db :
  (∀ row, row ∈ Mem.rows db → Mem.matches where_ row = false) →
  Mem.selected where_ db = [].
Proof.
  intros H. unfold Mem.selected.
  induction (Mem.rows db) as [| row rows IH]; [done |].
  rewrite filter_cons_False.
  - apply IH. intros r Hr. apply H. by right.
  - rewrite (H row) by left. done.
Qed.

Lemma update_nothing where_ (values : obj) (rows : list obj) :
  (∀ row, row ∈ rows → Mem.matches where_ row = false) →
  (λ row, if Mem.matches where_ row then values ∪ row else row) <$> rows = rows.
Proof.
  intros H. induction rows as [| row rows IH]; [done |].
  rewrite fmap_cons, (H row) by left. f_equal. apply IH.
  intros r Hr. apply H. by right.
Qed.

Lemma find_none pk id (rows : list obj) :
  List.find (Mem.has_key pk id) rows = None →
  ∀ row, row ∈ rows → Mem.has_key pk id row = false.
Proof.
  intros H row Hin. apply (List.find_none _ _ H). by apply list_elem_of_In.
Qed.
End MemFacts.

(** *** A lookup by an id that is not in the table *)

Section Missing.
Context {utils : Utils}.
Variables (pk sql : string) (paginate : value) (raw : bool).

Lemma get_missing id params w :
  List.find (Mem.has_key pk id) (Mem.rows (db w)) = None →
  eager params = false →
  _get (Mem.service pk sql pk paginate raw) id params w
  = (Rejected (not_found id),
     {| db := db w;
        calls := calls w ++ [FindById id (assign (<["raw" := VBool raw]> ∅)
                                                  (Params.sequelize params))] |}).
Proof.
  intros Hfind Heager. unfold _get. unfold eager in Heager. rewrite Heager.
  unfold then_, catch_, invoke. simpl. unfold Mem.mem_findById. by rewrite Hfind.
Qed.

Lemma target_misses id params (rows : list obj) :
  is_key id = true →
  List.find (Mem.has_key pk id) rows = None →
  ∀ row, row ∈ rows →
    Mem.matches (VObj (target (Mem.service pk sql pk paginate raw) id params)) row
    = false.
Proof.
  intros Hkey Hfind row Hin. unfold target.
  rewrite (is_key_not_null _ Hkey). simpl.
  match goal with |- ?m = false => destruct m eqn:Hm; [| done] end.
  apply matches_insert_holds in Hm. rewrite holds_key in Hm by done.
  pose proof (find_none _ _ _ Hfind row Hin) as Hno.
  unfold Mem.has_key in Hno. congruence.
Qed.
End Missing.

(** *** [create] on one item and on many *)

Section Create.
Context {S : Type} (this : Service.t S).

Lemma create_single data params w r s :
  isArray data = false →
  Orm.create (Service.Model this) data
    (assign (<["raw" := VBool (Service.raw this)]> ∅) (Params.sequelize params)) (db w)
  = (Resolved r, s) →
  create this data params w
  = (Resolved (shaped this params r),
     {| db := s;
        calls := calls w ++ [Create data (assign (<["raw" := VBool (Service.raw this)]> ∅)
                                                 (Params.sequelize params))] |}).
Proof.
  intros Harr Hc. unfold create, shaped.
  destruct data; try discriminate;
    unfold then_, catch_, invoke; rewrite Hc; simpl; by destruct (is_false _).
Qed.

Lemma create_bulk items params w rs s :
  bulkCreate (Service.Model this) items
    (assign (<["raw" := VBool (Service.raw this)]> ∅) (Params.sequelize params)) (db w)
  = (Resolved rs, s) →
  create this (VArr items) params w
  = (Resolved (VArr (shaped this params <$> rs)),
     {| db := s;
        calls := calls w ++ [BulkCreate items
                               (assign (<["raw" := VBool (Service.raw this)]> ∅)
                                       (Params.sequelize params))] |}).
Proof.
  intros Hc. unfold create, shaped.
  unfold then_, catch_, invoke. rewrite Hc. simpl.
  destruct (is_false _); simpl; [by rewrite list_fmap_id | done].
Qed.
End Create.

(** *** [_find] on the in-memory model *)

Section FindFacts.
Context {utils : Utils}.
Variables (pk sql id : string) (paginate : value) (raw : bool).

Lemma untouched_unset sequelize k :
  untouched sequelize = true →
  k ∈ ["where"; "order"; "limit"; "offset"; "attributes"] →
  own sequelize !! k = None.
Proof.
  unfold untouched, unset. intros H Hk.
  repeat (apply andb_prop in H as [H ?]).
  repeat (apply elem_of_cons in Hk as [-> | Hk]);
    [by destruct (own sequelize !! "where")
    | by destruct (own sequelize !! "order")
    | by destruct (own sequelize !! "limit")
    | by destruct (own sequelize !! "offset")
    | by destruct (own sequelize !! "attributes")
    | by apply elem_of_nil in Hk].
Qed.

Lemma find_on_mem params getFilter w :
  _find (Mem.service pk sql id paginate raw) params getFilter w
  = (Resolved
       {| Page.total :=
            Z.of_nat (length (Mem.selected
              (prop (VObj (find_options (Mem.service pk sql id paginate raw)
                             params getFilter)) "where") (db w)));
          Page.limit :=
            Filters.f_limit (getFilter (or_else (Params.query params) (VObj ∅))).1;
          Page.skip :=
            or_else (Filters.f_skip
                       (getFilter (or_else (Params.query params) (VObj ∅))).1) (VNum 0);
          Page.data :=
            Mem.found (find_options (Mem.service pk sql id paginate raw)
                         params getFilter) (db w) |},
     {| db := db w;
        calls := calls w ++ [FindAndCount (find_options (Mem.service pk sql id paginate raw)
                                             params getFilter)] |}).
Proof.
  unfold _find, find_options.
  destruct (getFilter _) as [filters query]. reflexivity.
Qed.

Lemma find_options_prop params getFilter k :
  k ≠ "attributes" →
  own (Params.sequelize params) !! k = None →
  prop (VObj (find_options (Mem.service pk sql id paginate raw) params getFilter)) k
  = prop (VObj (<["where" := getWhere (VObj (getFilter (or_else (Params.query params) (VObj ∅))).2)]>
                (<["order" := getOrder (Filters.f_sort (getFilter (or_else (Params.query params) (VObj ∅))).1)]>
                 (<["limit" := Filters.f_limit (getFilter (or_else (Params.query params) (VObj ∅))).1]>
                  (<["offset" := Filters.f_skip (getFilter (or_else (Params.query params) (VObj ∅))).1]>
                   (<["raw" := VBool raw]> ∅)))))) k.
Proof.
  intros Hk Hseq. unfold find_options.
  destruct (getFilter _) as [filters query]. simpl.
  unfold prop, assign.
  destruct (truthy _); [rewrite lookup_insert_ne by done |];
    by rewrite lookup_union_r.
Qed.

Lemma find_options_where params getFilter :
  untouched (Params.sequelize params) = true →
  prop (VObj (find_options (Mem.service pk sql id paginate raw) params getFilter)) "where"
  = getWhere (VObj (getFilter (or_else (Params.query params) (VObj ∅))).2).
Proof.
  intros Hseq. rewrite find_options_prop; [done | done |].
  apply untouched_unset; [done | set_solver].
Qed.

Lemma find_options_order params getFilter :
  untouched (Params.sequelize params) = true →
  prop (VObj (find_options (Mem.service pk sql id paginate raw) params getFilter)) "order"
  = getOrder (Filters.f_sort (getFilter (or_else (Params.query params) (VObj ∅))).1).
Proof.
  intros Hseq. rewrite find_options_prop; [done | done |].
  apply untouched_unset; [done | set_solver].
Qed.

Lemma find_options_limit params getFilter :
  own (Params.sequelize params) !! "limit" = None →
  prop (VObj (find_options (Mem.service pk sql id paginate raw) params getFilter)) "limit"
  = Filters.f_limit (getFilter (or_else (Params.query params) (VObj ∅))).1.
Proof. intros Hseq. by rewrite find_options_prop. Qed.

Lemma find_options_offset params getFilter :
  untouched (Params.sequelize params) = true →
  prop (VObj (find_options (Mem.service pk sql id paginate raw) params getFilter)) "offset"
  = Filters.f_skip (getFilter (or_else (Params.query params) (VObj ∅))).1.
Proof.
  intros Hseq. rewrite find_options_prop; [done | done |].
  apply untouched_unset; [done | set_solver].
Qed.

Lemma find_options_attributes params getFilter :
  untouched (Params.sequelize params) = true →
  prop (VObj (find_options (Mem.service pk sql id paginate raw) params getFilter))
       "attributes"
  = if truthy (Filters.f_select (getFilter (or_else (Params.query params) (VObj ∅))).1)
    then Filters.f_select (getFilter (or_else (Params.query params) (VObj ∅))).1
    else VUndef.
Proof.
  intros Hseq. unfold find_options.
  destruct (getFilter _) as [filters query]. simpl.
  unfold prop, assign. destruct (truthy _).
  - by rewrite lookup_insert_eq.
  - rewrite lookup_union_r; [done |]. apply untouched_unset; [done | set_solver].
Qed.

Lemma window_length offset n (l : list obj) :
  0 ≤ n → Z.of_nat (length (Mem.window offset (VNum n) l)) ≤ n.
Proof. intros Hn. unfold Mem.window. rewrite length_take. lia. Qed.

Lemma found_length q db n :
  prop (VObj q) "limit" = VNum n → 0 ≤ n →
  Z.of_nat (length (Mem.found q db)) ≤ n.
Proof.
  intros Hlimit Hn. unfold Mem.found. rewrite length_fmap, Hlimit.
  by apply window_length.
Qed.

Lemma prop_or_empty query k :
  prop query k = VUndef → prop (or_else query (VObj ∅)) k = VUndef.
Proof. unfold or_else. by destruct (truthy query). Qed.
End FindFacts.

(** *** Lists *)

Section Lists.
Context {A : Type}.




Lemma filter_agree (P Q : A → bool) (l : list A) :
  (∀ x, x ∈ l → P x = Q x) →
  filter (λ x, P x = true) l = filter (λ x, Q x = true) l.
Proof.
  intros H. induction l as [| x l IH]; [done |].
  assert (P x = Q x) as Hx by (apply H; left).
  assert (filter (λ x, P x = true) l = filter (λ x, Q x = true) l) as Hl.
  { apply IH. intros y Hy. apply H. by right. }
  destruct (Q x) eqn:HQ.
  - rewrite !filter_cons_True by congruence. by rewrite Hl.
  - rewrite !filter_cons_False by congruence. done.
Qed.


End Lists.

(** *** Keys: one row per id *)

Section Keys.
Variable name : string.

Lemma same_refl a : is_key a = true → Mem.same a a = true.
Proof.
  destruct a; try done; intros _; unfold Mem.same, Mem.literal.
  - apply Z.eqb_refl.
  - destruct (Mem.numeral s); [apply Z.eqb_refl | apply String.eqb_refl].
Qed.

Lemma same_sym a b : Mem.same a b = Mem.same b a.
Proof.
  unfold Mem.same. destruct (Mem.literal a), (Mem.literal b); try done.
  - by destruct b0, b1.
  - apply Z.eqb_sym.
  - apply String.eqb_sym.
Qed.

Lemma among_cons field x l :
  Mem.among field (VArr (x :: l)) = Mem.same field x || Mem.among field (VArr l).
Proof. done. Qed.

Lemma among_none field (rows : list obj) (hit : obj → bool) :
  existsb (λ other, Mem.same (prop (VObj other) name) field) rows = false →
  Mem.among field
    (VArr ((λ r : obj, prop (VObj r) name) <$> filter (λ r, hit r = true) rows))
  = false.
Proof.
  induction rows as [| row rows IH]; [done |].
  intros H. simpl in H. apply orb_false_elim in H as [Hrow Hrest].
  destruct (hit row) eqn:Hh.
  - rewrite filter_cons_True by done. rewrite fmap_cons, among_cons.
    rewrite same_sym, Hrow. simpl. by apply IH.
  - rewrite filter_cons_False by congruence. by apply IH.
Qed.

(** Asking a table without repeated ids for the ids of the rows that a
    where clause hit gives those rows again, also after a change [g] of
    the rows that leaves the ids alone. *)
Lemma keyed_reselect (hit : obj → bool) (g : obj → obj) (rows : list obj) :
  keyed name rows = true →
  (∀ r, prop (VObj (g r)) name = prop (VObj r) name) →
  filter (λ r, Mem.among (prop (VObj r) name)
                 (VArr ((λ r : obj, prop (VObj r) name)
                          <$> filter (λ r, hit r = true) rows)) = true)
         (g <$> rows)
  = g <$> filter (λ r, hit r = true) rows.
Proof.
  intros Hkeyed Hg. induction rows as [| row rows IH]; [done |].
  simpl in Hkeyed. apply andb_prop in Hkeyed as [[Hkey Huniq]%andb_prop Hrest].
  apply negb_true_iff in Huniq.
  specialize (IH Hrest). rewrite fmap_cons.
  destruct (hit row) eqn:Hh.
  - rewrite (filter_cons_True (λ r, hit r = true)) by done.
    rewrite !fmap_cons.
    rewrite filter_cons_True
      by (rewrite Hg, among_cons; by rewrite same_refl).
    f_equal. rewrite <- IH.
    apply (filter_agree
             (λ r, Mem.among (prop (VObj r) name)
                     (VArr (prop (VObj row) name
                            :: ((λ r : obj, prop (VObj r) name)
                                  <$> filter (λ r, hit r = true) rows))))
             (λ r, Mem.among (prop (VObj r) name)
                     (VArr ((λ r : obj, prop (VObj r) name)
                              <$> filter (λ r, hit r = true) rows)))).
    intros r' [r [-> Hr]]%list_elem_of_fmap.
    rewrite among_cons, Hg.
    assert (Mem.same (prop (VObj r) name) (prop (VObj row) name) = false) as ->;
      [| done].
    apply not_true_is_false. intros Hs.
    assert (existsb (λ other, Mem.same (prop (VObj other) name)
                                       (prop (VObj row) name)) rows
            = true) as Hex; [| congruence].
    apply existsb_exists. exists r. split; [by apply list_elem_of_In | done].
  - rewrite (filter_cons_False (λ r, hit r = true)) by congruence.
    rewrite filter_cons_False; [done |].
    rewrite Hg. by rewrite among_none.
Qed.
End Keys.

(** *** Where clauses, queries and selections *)

Section Where.
Lemma matches_in name ids (row : obj) :
  Mem.matches (VObj (<[name := VObj (<["$in" := VArr ids]> ∅)]> ∅)) row
  = Mem.among (prop (VObj row) name) (VArr ids).
Proof.
  unfold Mem.matches. rewrite !insert_empty.
  apply Bool.eq_true_iff_eq.
  rewrite bool_decide_eq_true, map_Forall_singleton.
  unfold Mem.holds. rewrite bool_decide_eq_true, map_Forall_singleton.
  done.
Qed.

Lemma field_name_properties name k :
  field_name name = true → k ∈ Filters.PROPERTIES → name ≠ k.
Proof.
  unfold field_name. intros H Hk ->.
  apply negb_true_iff in H.
  assert (existsb (String.eqb k) Filters.PROPERTIES = true); [| congruence].
  apply existsb_exists. exists k. split; [by apply list_elem_of_In |].
  apply String.eqb_refl.
Qed.

Lemma omit_absent (fields : obj) (keys : list string) :
  (∀ k, k ∈ keys → fields !! k = None) → omit (VObj fields) keys = fields.
Proof.
  unfold omit. simpl. induction keys as [| k keys IH]; intros H; [done |].
  simpl. rewrite IH by (intros; apply H; by right).
  apply delete_id, H. by left.
Qed.

Lemma omit_properties name (v : value) :
  field_name name = true →
  omit (VObj (<[name := v]> ∅)) Filters.PROPERTIES = <[name := v]> ∅.
Proof.
  intros H. apply omit_absent. intros k Hk.
  rewrite lookup_insert_ne; [done |]. by apply field_name_properties.
Qed.

Lemma prop_single name (v : value) k :
  name ≠ k → prop (VObj (<[name := v]> ∅)) k = VUndef.
Proof. intros H. unfold prop. by rewrite lookup_insert_ne. Qed.

Lemma or_else_object (fields : obj) v : or_else (VObj fields) v = VObj fields.
Proof. done. Qed.

Lemma project_keeps name attributes (row : obj) :
  (∀ fields, attributes = VArr fields → VStr name ∈ fields) →
  prop (VObj (Mem.project attributes row)) name = prop (VObj row) name.
Proof.
  intros H. unfold Mem.project. destruct attributes; try done.
  unfold prop. rewrite map_lookup_filter.
  destruct (row !! name) as [v |]; [| done]. simpl.
  rewrite option_guard_True; [done |].
  simpl. apply list_elem_of_fmap. exists (VStr name). split; [done | by apply H].
Qed.

Lemma returning_of_options (options : obj) :
  prop (VObj (<["returning" := VBool true]> options)) "returning" = VBool true.
Proof. unfold prop. by rewrite lookup_insert_eq. Qed.

Lemma pick_fold_lookup (source : value) (keys : list value) : ∀ (acc : obj) k,
  foldl (λ (result : obj) key,
           match key_of key with
           | Some k => <[k := prop source k]> result
           | None => result
           end) acc keys !! k
  = if decide (Some k ∈ key_of <$> keys) then Some (prop source k) else acc !! k.
Proof.
  induction keys as [| key keys IH]; intros acc k.
  - cbn. rewrite decide_False; [done |]. apply not_elem_of_nil.
  - cbn [foldl]. rewrite IH. rewrite fmap_cons.
    destruct (decide (Some k ∈ key_of <$> keys)) as [Hin | Hout].
    + rewrite decide_True; [done | by right].
    + destruct (key_of key) as [k' |] eqn:Hkey.
      * destruct (decide (k' = k)) as [-> | Hne].
        -- rewrite decide_True by left. by rewrite lookup_insert_eq.
        -- rewrite decide_False by (intros [[=] |]%elem_of_cons; done).
           by rewrite lookup_insert_ne.
      * rewrite decide_False by (intros [[=] |]%elem_of_cons; done). done.
Qed.

Lemma pick_idem (source : value) (keys : list value) :
  pick (pick source keys) keys = pick source keys.
Proof.
  unfold pick at 1 3. f_equal. apply map_eq. intros k.
  rewrite !pick_fold_lookup.
  destruct (decide _); [| done]. f_equal.
  unfold pick, prop at 1. rewrite pick_fold_lookup. by rewrite decide_True.
Qed.

(** Selecting twice is selecting once. *)
Lemma select_idem query fields (row : obj) :
  select query fields (select query fields (VObj row)) = select query fields (VObj row).
Proof.
  unfold select. destruct (if truthy query then _ else _); try done.
  unfold pick at 2. by rewrite <- pick_idem at 2.
Qed.
Lemma omit_lookup_in (v : value) (keys : list string) k :
  omit v keys !! k = if decide (k ∈ keys) then None else own v !! k.
Proof.
  unfold omit. induction keys as [| key keys IH]; cbn [foldr].
  - destruct (decide (k ∈ [])) as [Hin |]; [| done]. by apply not_elem_of_nil in Hin.
  - destruct (decide (k = key)) as [-> | Hne].
    + rewrite lookup_delete_eq.
      destruct (decide (key ∈ key :: keys)) as [| Hout]; [done |].
      destruct Hout. apply list_elem_of_here.
    + rewrite lookup_delete_ne by done. rewrite IH.
      destruct (decide (k ∈ keys)) as [Hin | Hout];
        destruct (decide (k ∈ key :: keys)) as [Hin' | Hout']; try done.
      * destruct Hout'. by apply list_elem_of_further.
      * apply elem_of_cons in Hin' as [? | ?]; done.
Qed.

(** What [select] appends to [$select] changes nothing else of the
    query. *)
Lemma selecting_own query fields k :
  k ≠ "$select" → own (selecting query fields) !! k = own query !! k.
Proof.
  intros Hk. unfold selecting. destruct query as [| | | | | | | o]; try done.
  destruct (o !! "$select") as [[] |]; try done.
  cbn. by rewrite lookup_insert_ne.
Qed.

Lemma selecting_prop query fields k :
  k ≠ "$select" → prop (selecting query fields) k = prop query k.
Proof.
  intros Hk. unfold selecting. destruct query as [| | | | | | | o]; try done.
  destruct (o !! "$select") as [[] |]; try done.
  unfold prop. by rewrite lookup_insert_ne.
Qed.

Lemma selecting_or_empty query fields :
  or_else (selecting query fields) (VObj ∅)
  = selecting (or_else query (VObj ∅)) fields.
Proof.
  unfold or_else, selecting.
  destruct query as [| | [] | z | | s | | o]; try done.
  all: try by destruct (truthy _).
  cbn [truthy]. by destruct (o !! "$select") as [[] |].
Qed.

Lemma selecting_omit query fields :
  omit (selecting query fields) Filters.PROPERTIES = omit query Filters.PROPERTIES.
Proof.
  apply map_eq. intros k. rewrite !omit_lookup_in.
  destruct (decide (k ∈ Filters.PROPERTIES)) as [| Hout]; [done |].
  apply selecting_own. intros ->. apply Hout. set_solver.
Qed.

(** The fields [select] picks are those the query lists once [select]
    has appended to them. *)
Lemma selecting_select query fields :
  prop (selecting query fields) "$select"
  = match prop query "$select" with
    | VArr listed => VArr (listed ++ (VStr <$> fields))
    | other => other
    end.
Proof.
  unfold selecting, prop. destruct query as [| | | | | | | o]; try done.
  destruct (o !! "$select") as [[] |] eqn:Hs; cbn; rewrite ?Hs; try done.
  by rewrite lookup_insert_eq.
Qed.


End Where.

(** *** Reads and writes of [patch] and [remove] on the in-memory model *)

Section Writes.
Context {utils : Utils}.
Variables (pk sql id : string) (paginate : value) (raw : bool).
#[local] Abbreviation this := (Mem.service pk sql id paginate raw).

Lemma selected_transparent (c : obj) db :
  transparent utils →
  Mem.selected (getWhere (VObj c)) db = Mem.selected (VObj c) db.
Proof.
  intros [Hwhere _]. unfold Mem.selected.
  apply (filter_agree (Mem.matches (getWhere (VObj c))) (Mem.matches (VObj c))).
  intros row _. apply Hwhere.
Qed.

Lemma unwindowed_or_empty query :
  unwindowed query = true → unwindowed (or_else query (VObj ∅)) = true.
Proof. unfold or_else. by destruct (truthy query). Qed.

(** Ordering moves rows, it neither adds nor drops one; and without
    fields to order by the rows stay as they are. *)
Lemma place_perm keys row sorted : Mem.place keys row sorted ≡ₚ row :: sorted.
Proof.
  induction sorted as [| next rest IH]; [done |]. cbn.
  destruct (Mem.no_later keys row next); [done |].
  rewrite IH. apply Permutation_swap.
Qed.

Lemma arrange_perm order (l : list obj) : Mem.arrange order l ≡ₚ l.
Proof.
  unfold Mem.arrange. induction l as [| row l IH]; [done |]. cbn [foldr].
  rewrite place_perm. by f_equiv.
Qed.

Lemma arrange_plain order (l : list obj) :
  Mem.directions order = [] → Mem.arrange order l = l.
Proof.
  intros Hnone. unfold Mem.arrange. rewrite Hnone.
  induction l as [| row l IH]; [done |]. cbn [foldr]. rewrite IH.
  by destruct l.
Qed.

Lemma among_perm field (l1 l2 : list value) :
  l1 ≡ₚ l2 → Mem.among field (VArr l1) = Mem.among field (VArr l2).
Proof.
  unfold Mem.among. induction 1 as [| x l1 l2 _ IH | x y l | l1 l2 l3 _ IH1 _ IH2];
    cbn; [done | by rewrite IH | | congruence].
  by destruct (Mem.same field x), (Mem.same field y).
Qed.


(** Without a window, a find gives the rows that satisfy the conditions
    of the query, in the order asked for, each reduced to the selected
    columns. *)
Lemma found_plain params db :
  untouched (Params.sequelize params) = true →
  transparent utils →
  unwindowed (Params.query params) = true →
  Mem.found (find_options this params plain) db
  = (λ row, VObj (Mem.project
                    (if truthy (prop (or_else (Params.query params) (VObj ∅)) "$select")
                     then prop (or_else (Params.query params) (VObj ∅)) "$select"
                     else VUndef) row))
      <$> Mem.arrange (ordering params) (Mem.selected (VObj (conditions params)) db).
Proof.
  intros Hseq Ht Hw. apply unwindowed_or_empty in Hw.
  unfold unwindowed in Hw. apply andb_prop in Hw as [Hlimit Hskip].
  unfold Mem.found.
  rewrite find_options_where, find_options_order, find_options_attributes by done.
  rewrite find_options_limit, find_options_offset
    by (done || (apply untouched_unset; [done | set_solver])).
  simpl. unfold Filters.getLimit, Filters.parse. simpl.
  rewrite Hlimit, Hskip. simpl.
  by rewrite selected_transparent.
Qed.

(** [select] extends [$select] and leaves the rest of the query. *)
Lemma after_select_conditions params :
  conditions (after_select this params) = conditions params.
Proof.
  unfold conditions, after_select. cbn [Params.query Filters.filter snd].
  by rewrite selecting_or_empty, selecting_omit.
Qed.

Lemma after_select_ordering params :
  ordering (after_select this params) = ordering params.
Proof.
  unfold ordering, after_select. cbn [Params.query].
  by rewrite selecting_or_empty, selecting_prop.
Qed.

Lemma after_select_unwindowed params :
  unwindowed (Params.query (after_select this params))
  = unwindowed (Params.query params).
Proof.
  unfold unwindowed, after_select. cbn [Params.query].
  by rewrite !selecting_prop.
Qed.

(** The attributes the listing of [patch] and the lookup of [remove]
    ask for hold the id field. *)
Lemma after_select_lists params fields :
  (if truthy (prop (or_else (Params.query (after_select this params)) (VObj ∅))
                   "$select")
   then prop (or_else (Params.query (after_select this params)) (VObj ∅)) "$select"
   else VUndef) = VArr fields →
  VStr id ∈ fields.
Proof.
  unfold after_select. cbn [Params.query Service.id Mem.service].
  rewrite selecting_or_empty, selecting_select.
  destruct (prop _ "$select") as [| | | | | | listed |] eqn:Hs; try done;
    try by destruct (truthy _).
  cbn. intros [= <-]. apply elem_of_app. right. cbn. left.
Qed.

Lemma ids_of_found params db :
  untouched (Params.sequelize params) = true →
  transparent utils →
  unwindowed (Params.query params) = true →
  (λ current, prop current id)
    <$> Mem.found (find_options this (after_select this params) plain) db
  = (λ row : obj, prop (VObj row) id)
      <$> Mem.arrange (ordering params) (Mem.selected (VObj (conditions params)) db).
Proof.
  intros Hseq Ht Hw.
  rewrite found_plain by (done || by rewrite after_select_unwindowed).
  rewrite after_select_conditions, after_select_ordering.
  rewrite <- list_fmap_compose. apply list_fmap_ext. intros i row _. simpl.
  apply project_keeps. intros fields. apply after_select_lists.
Qed.


Lemma target_null params : target this VNull params = conditions params.
Proof. unfold target, conditions, assign. simpl. apply (right_id _ _). Qed.

Lemma target_key id_ params :
  is_null id_ = false → target this id_ params = <[id := id_]> (conditions params).
Proof.
  intros H. unfold target, conditions, assign. rewrite H. simpl.
  f_equal. apply (right_id _ _).
Qed.

Lemma patched_row_id columns data (hit : obj → bool) (row : obj) :
  prop (VObj (if hit row then patched_row columns id data row else row)) id
  = prop (VObj row) id.
Proof.
  destruct (hit row); [| done]. unfold prop, patched_row.
  by rewrite lookup_union_r by apply writable_none, omit_lookup.
Qed.

(** The re-read of the generic multi [patch] gives the rows the update
    changed, in table order. *)
Lemma reread data params db :
  untouched (Params.sequelize params) = true →
  transparent utils →
  unwindowed (Params.query params) = true →
  field_name id = true →
  keyed id (Mem.rows db) = true →
  Mem.found
    (find_options this
       (re_query id ((λ current, prop current id)
                       <$> Mem.found (find_options this (after_select this params) plain)
                             db) params)
       plain)
    (updated this VNull data params db)
  = (λ row, VObj (patched_row (Mem.columns db) id data row))
      <$> Mem.selected (VObj (conditions params)) db.
Proof.
  intros Hseq Ht Hw Hname Hkeyed.
  rewrite ids_of_found by done.
  set (ids := (λ row : obj, prop (VObj row) id)
                <$> Mem.arrange (ordering params)
                      (Mem.selected (VObj (conditions params)) db)).
  assert (∀ k, k ∈ Filters.PROPERTIES →
            prop (VObj (<[id := VObj (<["$in" := VArr ids]> ∅)]> ∅)) k = VUndef)
    as Hprops.
  { intros k Hk. apply prop_single. by apply field_name_properties. }
  rewrite found_plain; [| done | done |].
  2: { unfold unwindowed. cbn [re_query Params.query].
       rewrite !Hprops by set_solver. done. }
  unfold ordering. cbn [re_query Params.query]. rewrite or_else_object.
  rewrite !Hprops by set_solver. cbn [truthy Filters.convertSort Mem.project].
  rewrite arrange_plain by apply Ht.
  unfold conditions at 1. cbn [re_query Params.query Filters.filter snd].
  rewrite or_else_object, omit_properties by done.
  unfold Mem.selected at 1, updated. cbn [Mem.rows Service.id Mem.service].
  rewrite (filter_agree _ (λ row, Mem.among (prop (VObj row) id)
             (VArr ((λ row : obj, prop (VObj row) id)
                      <$> Mem.selected (VObj (conditions params)) db)))).
  2: { intros row _. rewrite matches_in. apply among_perm.
       unfold ids. by rewrite arrange_perm. }
  rewrite target_null. unfold Mem.selected.
  rewrite (keyed_reselect id (Mem.matches (VObj (conditions params)))) by
    (done || intros; apply patched_row_id).
  rewrite <- !list_fmap_compose. apply list_fmap_ext.
  intros i row Hrow. apply list_elem_of_lookup_2, list_elem_of_filter in Hrow as [Hhit _].
  unfold compose. by rewrite Hhit.
Qed.

(** The returning path. *)
Lemma patch_returning id_ data params w :
  sql = "postgres" →
  is_false (Params.returning params) = false →
  patch this id_ data params w
  = (let patched := (λ row, VObj (patched_row (Mem.columns (db w)) id data row))
                      <$> Mem.selected (VObj (target this id_ params)) (db w) in
     if is_null id_
     then Resolved (select (Params.query params) [id] (VArr patched))
     else match patched with
          | [] => Rejected (not_found id_)
          | first :: _ => Resolved (select (Params.query params) [id] first)
          end,
     {| db := updated this id_ data params (db w);
        calls := calls w ++ [Update (omit data [id])
                               (<["returning" := VBool true]>
                                  (write_options this id_ params))] |}).
Proof.
  intros -> Hret. unfold patch. rewrite Hret. simpl.
  unfold then_, catch_, invoke. simpl.
  rewrite where_of_returning, returning_of_options. simpl.
  unfold write_options, updated, patched_row.
  destruct (is_null id_); [done |].
  by destruct (_ <$> _).
Qed.

(** The generic path, for all the records of a query. *)
Lemma patch_generic_all data params w :
  String.eqb sql "postgres" && negb (is_false (Params.returning params)) = false →
  patch this VNull data params w
  = let q1 := find_options this (after_select this params) plain in
    let ids := (λ current, prop current id) <$> Mem.found q1 (db w) in
    let q2 := find_options this (re_query id ids params) plain in
    if is_false (Params.returning params)
    then (Resolved (VArr []),
          {| db := updated this VNull data params (db w);
             calls := calls w ++ [FindAndCount q1;
                                  Update (omit data [id])
                                    (write_options this VNull params)] |})
    else (Resolved (select (Params.query params) [id]
                      (VArr (Mem.found q2 (updated this VNull data params (db w))))),
          {| db := updated this VNull data params (db w);
             calls := calls w ++ [FindAndCount q1;
                                  Update (omit data [id])
                                    (write_options this VNull params);
                                  FindAndCount q2] |}).
Proof.
  intros Hpath. unfold patch. simpl. rewrite Hpath.
  unfold then_, catch_, resolve. rewrite find_on_mem. simpl.
  unfold invoke. simpl.
  rewrite where_of_options.
  destruct (is_false (Params.returning params)); cbn.
  - rewrite <- app_assoc. cbn. unfold select.
    by destruct (if truthy _ then _ else _).
  - unfold _getOrFind. cbn.
    unfold then_, resolve. rewrite find_on_mem. cbn.
    by rewrite <- !app_assoc.
Qed.

Lemma remove_quiet id_ params w :
  is_false (Params.returning params) = true →
  remove this id_ params w
  = (Resolved (VArr []),
     {| db := removed this id_ params (db w);
        calls := calls w ++ [Destroy (write_options this id_ params)] |}).
Proof.
  intros Hret. unfold remove. rewrite Hret. simpl.
  unfold then_, catch_, invoke, resolve. simpl.
  rewrite where_of_options. unfold select.
  by destruct (if truthy _ then _ else _).
Qed.

End Writes.

(** *** One record, found by its key *)

Section One.
Context {utils : Utils}.
Variables (pk sql : string) (paginate : value) (raw : bool).
#[local] Abbreviation this := (Mem.service pk sql pk paginate raw).





End One.

(** *** Reads leave the table as it is *)

Section Reads.
Context {utils : Utils}.
Variables (pk sql id : string) (paginate : value) (raw : bool).
#[local] Abbreviation this := (Mem.service pk sql id paginate raw).

Lemma get_reads id_ params w :
  ∃ c, method c = (if eager params then "findAll" else "findById")
       ∧ db (_get this id_ params w).2 = db w
       ∧ calls (_get this id_ params w).2 = calls w ++ [c].
Proof.
  unfold _get, eager. destruct (truthy _ && truthy _).
  - exists (FindAll (assign (<["where" := VObj (assign (<["id" := id_]> ∅)
                                                   (getWhere (Params.query params)))]> ∅)
                            (Params.sequelize params))).
    split; [reflexivity |].
    unfold then_, catch_, invoke. cbn.
    by destruct (Mem.found _ _).
  - exists (FindById id_ (assign (<["raw" := VBool raw]> ∅) (Params.sequelize params))).
    split; [reflexivity |].
    unfold then_, catch_, invoke. cbn.
    by destruct (List.find _ _).
Qed.

Lemma getOrFind_reads id_ params w :
  db (_getOrFind this id_ params w).2 = db w.
Proof.
  unfold _getOrFind. destruct (is_null id_).
  - unfold then_. by rewrite find_on_mem.
  - by destruct (get_reads id_ params w) as (c & _ & Hdb & _).
Qed.

Lemma remove_resolved id_ params w v :
  (remove this id_ params w).1 = Resolved v →
  db (remove this id_ params w).2 = removed this id_ params (db w).
Proof.
  destruct (is_false (Params.returning params)) eqn:Hret.
  - intros _. by rewrite remove_quiet.
  - unfold remove. rewrite Hret. cbn [negb].
    unfold then_, catch_.
    pose proof (getOrFind_reads id_ (after_select this params) w) as Hdb.
    destruct (_getOrFind this id_ (after_select this params) w)
      as [[found | e] w1]; [| done].
    intros _. unfold invoke. simpl in *. rewrite where_of_options. by rewrite Hdb.
Qed.
End Reads.


(** *** The calls of the generic [patch] *)

Section GenericCalls.
Context {utils : Utils}.
Variables (pk sql id : string) (paginate : value) (raw : bool).
#[local] Abbreviation this := (Mem.service pk sql id paginate raw).


End GenericCalls.


(** *** The claims *)

(** C1 (as amended).  On a table keyed by the service's id field, let
    [id] be a number or a string that is the key of no row, and let the
    call not ask for eager loading.  Then [get] rejects with NotFound,
    [update] with data that is not an array rejects with NotFound, and,
    when [$returning] is not [false], single-target [remove] and
    single-target [patch] (on either dialect) reject with NotFound.  When
    [$returning] is [false] they look nothing up and resolve with the
    empty array. *)
Theorem missing_id_not_found {utils : Utils} (pk sql : string)
    (paginate : value) (raw : bool) (id data : value) (params : Params.t)
    (w : World Mem.DB) :
  let this := Mem.service pk sql pk paginate raw in
  is_key id = true →
  List.find (Mem.has_key pk id) (Mem.rows (db w)) = None →
  eager params = false →
  rejects NotFound (get this id params w)
  ∧ (isArray data = false → rejects NotFound (update this id data params w))
  ∧ (is_false (Params.returning params) = false →
     rejects NotFound (remove this id params w)
     ∧ rejects NotFound (patch this id data params w))
  ∧ (is_false (Params.returning params) = true →
     (remove this id params w).1 = Resolved (VArr [])
     ∧ (patch this id data params w).1 = Resolved (VArr [])).
Proof.
  intros this Hkey Hfind Heager. subst this.
  pose proof (target_misses pk sql paginate raw id params _ Hkey Hfind) as Hmiss.
  split; [| split; [| split]].
  - exists (not_found id). unfold get, then_. by rewrite get_missing.
  - intros Harr. exists (not_found id). unfold update. rewrite Harr.
    unfold then_, catch_, invoke. simpl. unfold Mem.mem_findById. by rewrite Hfind.
  - intros Hret. split.
    + exists (not_found id). unfold remove. rewrite Hret. simpl.
      unfold _getOrFind. rewrite (is_key_not_null _ Hkey).
      unfold then_, catch_. by rewrite get_missing.
    + exists (not_found id). unfold patch. rewrite Hret, (is_key_not_null _ Hkey).
      simpl. destruct (String.eqb sql "postgres"); simpl.
      * unfold then_, catch_, invoke. simpl.
        rewrite where_of_returning, selected_nil by done.
        by destruct (truthy _).
      * unfold then_, catch_, invoke, resolve. simpl.
        rewrite where_of_options, update_nothing by done.
        unfold _getOrFind. rewrite (is_key_not_null _ Hkey).
        rewrite get_missing; done.
  - intros Hret. split.
    + unfold remove. rewrite Hret. simpl.
      unfold then_, catch_, invoke. simpl. unfold select.
      by destruct (if truthy _ then _ else _).
    + unfold patch. rewrite Hret, (is_key_not_null _ Hkey), andb_false_r.
      unfold then_, catch_, invoke. simpl. unfold select.
      by destruct (if truthy _ then _ else _).
Qed.

Lemma missing_id_not_found_witness :
  let this := Example.tasks "sqlite" in
  let id := VNum 9 in
  let data := VObj (<["name" := VStr "draft"]> ∅) in
  let params := Example.params VUndef VUndef VUndef in
  let quiet := Example.params VUndef VUndef (VBool false) in
  ((is_key id = true
    ∧ List.find (Mem.has_key "id" id) (Mem.rows (db Example.world)) = None
    ∧ eager params = false
    ∧ isArray data = false
    ∧ is_false (Params.returning params) = false)
   ∧ rejects NotFound (get (utils := Mem.utils) this id params Example.world)
   ∧ rejects NotFound (update this id data params Example.world)
   ∧ rejects NotFound (remove (utils := Mem.utils) this id params Example.world)
   ∧ rejects NotFound (patch (utils := Mem.utils) this id data params Example.world))
  ∧ ((eager quiet = false ∧ is_false (Params.returning quiet) = true)
     ∧ (remove (utils := Mem.utils) this id quiet Example.world).1 = Resolved (VArr [])
     ∧ (patch (utils := Mem.utils) this id data quiet Example.world).1
       = Resolved (VArr [])).
Proof.
  intros this id data params quiet. split.
  - split; [repeat split; reflexivity |].
    destruct (missing_id_not_found (utils := Mem.utils) "id" "sqlite" (VObj ∅) true
                id data params Example.world eq_refl eq_refl eq_refl)
      as (Hget & Hupdate & Hreturning & _).
    destruct (Hreturning eq_refl) as [Hremove Hpatch].
    repeat split; [exact Hget | exact (Hupdate eq_refl) | exact Hremove | exact Hpatch].
  - split; [split; reflexivity |].
    destruct (missing_id_not_found (utils := Mem.utils) "id" "sqlite" (VObj ∅) true
                id data quiet Example.world eq_refl eq_refl eq_refl)
      as (_ & _ & _ & Hquiet).
    exact (Hquiet eq_refl).
Defined.

(** C1 (as stated) fails: with [$returning: false], [remove] of an id
    that is the key of no row resolves with the empty array. *)
Lemma remove_missing_id_resolves :
  List.find (Mem.has_key "id" (VNum 9)) (Mem.rows (db Example.world)) = None
  ∧ (remove (utils := Mem.utils) (Example.tasks "sqlite") (VNum 9)
       (Example.params VUndef VUndef (VBool false)) Example.world).1
    = Resolved (VArr []).
Proof. split; vm_compute; reflexivity. Qed.

(** C2 (at the failing input).  A service whose id field is [uuid], on a
    table keyed by [uuid]: [get] of an existing uuid with eager loading
    asks [findAll] for the rows whose [id] is that value, finds none and
    rejects with NotFound; the where clause has no condition on [uuid].
    The path without eager loading finds the record. *)
Theorem get_eager_loading_filters_by_literal_id :
  let include := VObj (<["include" := VArr [VStr "team"]]> ∅) in
  let eagerly := Example.params VUndef include VUndef in
  let lazily := Example.params VUndef VUndef VUndef in
  Service.id Example.people = "uuid"
  ∧ (∃ q, calls (get (utils := Mem.utils) Example.people (VStr "a1") eagerly
                     Example.members).2 = [FindAll q]
          ∧ prop (prop (VObj q) "where") "id" = VStr "a1"
          ∧ own (prop (VObj q) "where") !! "uuid" = None)
  ∧ rejects NotFound (get (utils := Mem.utils) Example.people (VStr "a1") eagerly
                         Example.members)
  ∧ (get (utils := Mem.utils) Example.people (VStr "a1") lazily Example.members).1
    = Resolved (VObj (Example.member "a1" "ada")).
Proof.
  intros include eagerly lazily. split; [reflexivity |].
  split; [| split].
  - eexists. split; [vm_compute; reflexivity |]. split; vm_compute; reflexivity.
  - eexists. split; vm_compute; reflexivity.
  - vm_compute. reflexivity.
Qed.

(** C3.  [update] with an array for [data] rejects with BadRequest and
    leaves the world as it was: no call on the model (no read and no
    write) is recorded and the database is the same, whatever the model,
    the id and the params are. *)
Theorem update_array_bad_request {S} (this : Service.t S)
    (id : value) (items : list value) (params : Params.t) (w : World S) :
  update this id (VArr items) params w = (Rejected bad_request, w)
  ∧ kind_of bad_request = BadRequest.
Proof. split; reflexivity. Qed.

(** C4 (at the failing input).  A service with the default [raw] on the
    table of tasks, and [update(2, {name: 'proofread'})].  The record is
    looked up with [raw: false], and [instance.update] is given the
    copy, which has the keys of the record, [data]'s value under [name]
    and [null] under [id] and [status], together with the options of
    the call, in which [raw] is [true].  With [raw] set the instance
    takes the values as they are and has nothing to save: [update]
    resolves with the copy, whose [id] is [null], the table is as it
    was, and a [get] of the record afterwards gives it unchanged.  The
    same call on a service built with [raw: false] does persist: the
    record keeps its id and holds [data]'s name and a [null] status. *)
Theorem update_does_not_persist :
  let data := VObj (<["name" := VStr "proofread"]> ∅) in
  let params := Example.params VUndef VUndef VUndef in
  let record := Example.task 2 "review" "open" in
  let copy : obj :=
    <["id" := VNull]> (<["name" := VStr "proofread"]> (<["status" := VNull]> ∅)) in
  let run := update (Example.tasks "sqlite") (VNum 2) data params Example.world in
  let instances := Mem.service "id" "sqlite" "id" (VObj ∅) false in
  let other := update instances (VNum 2) data params Example.world in
  (init (Some {| Options.Model := Some (Mem.model "id" "sqlite");
                 Options.paginate := VUndef;
                 Options.id := None;
                 Options.events := VUndef;
                 Options.raw := VUndef |})
   = inr (Example.tasks "sqlite"))
  ∧ calls run.2
    = [FindById (VNum 2) (<["raw" := VBool false]> ∅);
       InstanceUpdate (VObj record) copy (<["raw" := VBool true]> ∅)]
  ∧ run.1 = Resolved (VObj copy)
  ∧ db run.2 = Example.table
  ∧ (get (utils := Mem.utils) (Example.tasks "sqlite") (VNum 2) params run.2).1
    = Resolved (VObj record)
  ∧ other.1
    = Resolved (VObj (<["id" := VNum 2]>
                        (<["name" := VStr "proofread"]> (<["status" := VNull]> ∅))))
  ∧ Mem.rows (db other.2)
    = [Example.task 1 "write" "open";
       <["id" := VNum 2]> (<["name" := VStr "proofread"]> (<["status" := VNull]> ∅));
       Example.task 3 "ship" "done"].
Proof.
  intros data params record copy run instances other.
  repeat split; vm_compute; reflexivity.
Qed.
(** C5 (as amended).  [create] gives back what the ORM gave back for
    the insert, reduced to the selected fields unless [options.raw] is
    [false], in which case the ORM's instances are returned as they are
    ([shaped]).  For one item, on any model: when the model's [create]
    resolves with an instance, [create] resolves with that instance
    shaped.  For an array of items, on any model: when [bulkCreate]
    resolves with a list of instances, [create] resolves with an array
    of as many results, each of them the instance at its place shaped in
    the same way as a single [create] shapes its instance.  On the
    in-memory model, where [bulkCreate] gives an instance for each item,
    an array of [n] items gives an array of [n] results. *)
Theorem create_shapes_the_result :
  (∀ S (this : Service.t S) data params w r s,
     isArray data = false →
     Orm.create (Service.Model this) data (read_options this params) (db w)
     = (Resolved r, s) →
     (create this data params w).1 = Resolved (shaped this params r))
  ∧ (∀ S (this : Service.t S) items params w rs s,
       bulkCreate (Service.Model this) items (read_options this params) (db w)
       = (Resolved rs, s) →
       ∃ created,
         (create this (VArr items) params w).1 = Resolved (VArr created)
         ∧ length created = length rs
         ∧ ∀ i r, rs !! i = Some r → created !! i = Some (shaped this params r))
  ∧ (∀ pk sql id paginate raw items params w v,
       (create (Mem.service pk sql id paginate raw) (VArr items) params w).1
       = Resolved v →
       ∃ created, v = VArr created ∧ length created = length items).
Proof.
  split; [| split].
  - intros S this data params w r s Harr Hc.
    by rewrite (create_single this data params w r s).
  - intros S this items params w rs s Hc.
    exists (shaped this params <$> rs).
    rewrite (create_bulk this items params w rs s Hc).
    split; [done |]. split; [by rewrite length_fmap |].
    intros i r Hi. by rewrite list_lookup_fmap, Hi.
  - intros pk sql id paginate raw items params w v.
    unfold create, then_, catch_, invoke. cbn.
    unfold Mem.mem_bulkCreate.
    destruct (Mem.insert_all _ _ _ _) as [[rows | e] db']; cbn; [| done].
    destruct (is_false _); intros [= <-]; eexists; (split; [done |]);
      by rewrite ?length_fmap.
Qed.

Lemma create_shapes_the_result_witness :
  let this := Example.tasks "sqlite" in
  let params :=
    Example.params (VObj (<["$select" := VArr [VStr "name"]]> ∅)) VUndef VUndef in
  let item := VObj (<["name" := VStr "plan"]> (<["status" := VStr "open"]> ∅)) in
  let instance key : value :=
    VObj (<["id" := key]> (<["name" := VStr "plan"]> (<["status" := VStr "open"]> ∅))) in
  let row key : obj :=
    <["id" := key]> (<["name" := VStr "plan"]> (<["status" := VStr "open"]> ∅)) in
  let shown key : value := VObj (<["id" := key]> (<["name" := VStr "plan"]> ∅)) in
  let one : Mem.DB :=
    {| Mem.columns := ["id"; "name"; "status"];
       Mem.rows := Mem.rows Example.table ++ [row (VNum 4)];
       Mem.serial := 5 |} in
  let two : Mem.DB :=
    {| Mem.columns := ["id"; "name"; "status"];
       Mem.rows := Mem.rows Example.table ++ [row (VNum 4); row (VNum 5)];
       Mem.serial := 6 |} in
  ((isArray item = false
    ∧ Orm.create (Service.Model this) item (read_options this params) (db Example.world)
      = (Resolved (instance (VNum 4)), one))
   ∧ (create this item params Example.world).1 = Resolved (shown (VNum 4)))
  ∧ (bulkCreate (Service.Model this) [item; item] (read_options this params)
       (db Example.world)
     = (Resolved [instance VNull; instance VNull], two)
     ∧ (create this (VArr [item; item]) params Example.world).1
       = Resolved (VArr [shown VNull; shown VNull]))
  ∧ ∃ created,
      VArr [shown VNull; shown VNull] = VArr created
      ∧ length created = length [item; item].
Proof.
  intros this params item instance row shown one two.
  assert (isArray item = false) as Hitem by reflexivity.
  assert (Orm.create (Service.Model this) item (read_options this params)
            (db Example.world)
          = (Resolved (instance (VNum 4)), one)) as Hone by (vm_compute; reflexivity).
  assert (bulkCreate (Service.Model this) [item; item] (read_options this params)
            (db Example.world)
          = (Resolved [instance VNull; instance VNull], two)) as Htwo
    by (vm_compute; reflexivity).
  assert ((create this (VArr [item; item]) params Example.world).1
          = Resolved (VArr [shown VNull; shown VNull])) as Hv
    by (vm_compute; reflexivity).
  destruct create_shapes_the_result as (Hsingle & Hbulk & Hlength).
  split; [| split].
  - split; [by split |].
    etrans; [exact (Hsingle Mem.DB this item params Example.world
                      (instance (VNum 4)) one Hitem Hone) |].
    vm_compute. reflexivity.
  - split; [exact Htwo | exact Hv].
  - exact (Hlength "id" "sqlite" "id" (VObj ∅) true [item; item] params
             Example.world (VArr [shown VNull; shown VNull]) Hv).
Defined.

(** C5 (as stated) fails: a service with [raw: false] is asked to select
    [name] only, and [create] resolves with a record that still has its
    [status]. *)
Lemma create_raw_false_is_not_selected :
  let this := Mem.service "id" "sqlite" "id" (VObj ∅) false in
  let params :=
    Example.params (VObj (<["$select" := VArr [VStr "name"]]> ∅)) VUndef VUndef in
  let data := VObj (<["name" := VStr "plan"]> (<["status" := VStr "open"]> ∅)) in
  ∃ record,
    (create this data params Example.world).1 = Resolved (VObj record)
    ∧ record !! "status" = Some (VStr "open")
    ∧ select (Params.query params) ["id"] (VObj record) ≠ VObj record.
Proof.
  intros this params data.
  exists (<["id" := VNum 4]> (own data)).
  split; [vm_compute; reflexivity |].
  split; [vm_compute; reflexivity |].
  vm_compute. intros H. discriminate H.
Qed.

(** C6 (as amended).  On the in-memory model, [patch] with [id] null
    updates every record that satisfies the conditions of the query (the
    query without [$sort], [$limit], [$skip], [$select], [$populate]) and
    no other: such a record takes, for every column that [data] names
    other than the id field, the value [data] has for it.  On the
    returning path (postgres, [$returning] not [false]) it resolves with
    exactly the updated records, with the selection applied.  On the
    generic path it does so too when [$returning] is not [false],
    provided that [params.sequelize] sets none of [where], [order],
    [limit], [offset] and [attributes], that [utils.getWhere] gives the
    conditions as they are and [utils.getOrder] no order for an absent
    [$sort], that the query has no [$limit] or [$skip], that the id field
    is not named as a filter property is, and that the rows have ids
    that are numbers or strings, no two the same; when [$returning] is
    [false] it resolves with the empty array. *)
Theorem patch_all_matching {utils : Utils} (pk sql id : string) (paginate : value)
    (raw : bool) (data : value) (params : Params.t) (w : World Mem.DB) :
  let this := Mem.service pk sql id paginate raw in
  let patched := (λ row, VObj (patched_row (Mem.columns (db w)) id data row))
                   <$> Mem.selected (VObj (conditions params)) (db w) in
  Mem.rows (db (patch this VNull data params w).2)
  = (λ row, if Mem.matches (VObj (conditions params)) row
            then patched_row (Mem.columns (db w)) id data row else row)
      <$> Mem.rows (db w)
  ∧ (sql = "postgres" →
     is_false (Params.returning params) = false →
     (patch this VNull data params w).1
     = Resolved (select (Params.query params) [id] (VArr patched)))
  ∧ (sql ≠ "postgres" →
     is_false (Params.returning params) = false →
     untouched (Params.sequelize params) = true →
     transparent utils →
     unwindowed (Params.query params) = true →
     field_name id = true →
     keyed id (Mem.rows (db w)) = true →
     (patch this VNull data params w).1
     = Resolved (select (Params.query params) [id] (VArr patched)))
  ∧ (is_false (Params.returning params) = true →
     (patch this VNull data params w).1 = Resolved (VArr [])).
Proof.
  intros this patched. subst this patched.
  assert (updated (Mem.service pk sql id paginate raw) VNull data params (db w)
          = {| Mem.columns := Mem.columns (db w);
               Mem.rows := (λ row, if Mem.matches (VObj (conditions params)) row
                                   then patched_row (Mem.columns (db w)) id data row
                                   else row)
                             <$> Mem.rows (db w);
               Mem.serial := Mem.serial (db w) |}) as Hupdated.
  { unfold updated. by rewrite target_null. }
  destruct (String.eqb sql "postgres") eqn:Hsql;
    [apply String.eqb_eq in Hsql | apply String.eqb_neq in Hsql];
    destruct (is_false (Params.returning params)) eqn:Hret.
  - rewrite patch_generic_all by (by rewrite Hret, andb_false_r).
    rewrite Hret. cbn [fst snd db]. rewrite Hupdated. done.
  - rewrite patch_returning by done. cbn [fst snd db is_null].
    rewrite Hupdated, target_null. done.
  - rewrite patch_generic_all
      by (apply andb_false_intro1; by apply String.eqb_neq).
    rewrite Hret. cbn [fst snd db]. rewrite Hupdated. done.
  - rewrite patch_generic_all
      by (apply andb_false_intro1; by apply String.eqb_neq).
    rewrite Hret. cbn [fst snd db].
    split; [by rewrite Hupdated |]. split; [done |]. split; [| done].
    intros _ _ Hseq Ht Hw Hname Hkeyed. by rewrite reread.
Qed.

Lemma patch_all_matching_witness :
  let data := VObj (<["status" := VStr "done"]> ∅) in
  let open := VObj (<["status" := VStr "open"]>
                      (<["$select" := VArr [VStr "name"]]> ∅)) in
  let params := Example.params open VUndef VUndef in
  let quiet := Example.params open VUndef (VBool false) in
  let shown (key : Z) (name : string) : value :=
    VObj (<["id" := VNum key]> (<["name" := VStr name]> ∅)) in
  (("postgres" = "postgres" ∧ is_false (Params.returning params) = false)
   ∧ (patch (utils := Mem.utils) (Example.tasks "postgres") VNull data params
        Example.world).1
     = Resolved (VArr [shown 1 "write"; shown 2 "review"]))
  ∧ (("sqlite" ≠ "postgres"
      ∧ is_false (Params.returning params) = false
      ∧ untouched (Params.sequelize params) = true
      ∧ transparent Mem.utils
      ∧ unwindowed (Params.query params) = true
      ∧ field_name "id" = true
      ∧ keyed "id" (Mem.rows (db Example.world)) = true)
     ∧ (patch (utils := Mem.utils) (Example.tasks "sqlite") VNull data params
          Example.world).1
       = Resolved (VArr [shown 1 "write"; shown 2 "review"]))
  ∧ (is_false (Params.returning quiet) = true
     ∧ (patch (utils := Mem.utils) (Example.tasks "sqlite") VNull data quiet
          Example.world).1
       = Resolved (VArr [])).
Proof.
  intros data open params quiet shown.
  assert (transparent Mem.utils) as Ht by (split; [intros query row |]; reflexivity).
  split; [| split].
  - split; [by split |].
    destruct (patch_all_matching (utils := Mem.utils) "id" "postgres" "id" (VObj ∅) true
                data params Example.world) as (_ & Hreturning & _ & _).
    etrans; [apply Hreturning; reflexivity |]. vm_compute. reflexivity.
  - split; [repeat split; done |].
    destruct (patch_all_matching (utils := Mem.utils) "id" "sqlite" "id" (VObj ∅) true
                data params Example.world) as (_ & _ & Hgeneric & _).
    etrans; [apply Hgeneric; (reflexivity || done) |]. vm_compute. reflexivity.
  - split; [done |].
    destruct (patch_all_matching (utils := Mem.utils) "id" "sqlite" "id" (VObj ∅) true
                data quiet Example.world) as (_ & _ & _ & Hquiet).
    apply Hquiet; reflexivity.
Defined.

(** C6 (as stated) fails: with [$returning: false] on the generic path
    the two open tasks are updated and [patch] resolves with the empty
    array. *)
Lemma patch_all_without_returning :
  let data := VObj (<["status" := VStr "done"]> ∅) in
  let quiet :=
    Example.params (VObj (<["status" := VStr "open"]> ∅)) VUndef (VBool false) in
  (patch (utils := Mem.utils) (Example.tasks "sqlite") VNull data quiet
     Example.world).1 = Resolved (VArr [])
  ∧ Mem.rows (db (patch (utils := Mem.utils) (Example.tasks "sqlite") VNull data quiet
                    Example.world).2)
    = [Example.task 1 "write" "done"; Example.task 2 "review" "done";
       Example.task 3 "ship" "done"]
  ∧ Mem.rows (db Example.world)
    = [Example.task 1 "write" "open"; Example.task 2 "review" "open";
       Example.task 3 "ship" "done"].
Proof. intros data quiet. repeat split; vm_compute; reflexivity. Qed.

(** C7 (as amended).  On the in-memory model, with pagination settings
    that are not [null]: when they have a default, [find] resolves with
    a page object of [total], [limit], [skip] and [data], whose [skip] is
    0 when the query has no [$skip], and whose [data] has at most
    [limit] items whenever [limit] is a number that is not negative and
    [params.sequelize] does not set a [limit] of its own; when they have
    no default, [find] resolves with a bare array. *)
Theorem find_paginates {utils : Utils} (pk sql id : string)
    (service_paginate : value) (raw : bool) (params : Params.t) (w : World Mem.DB) :
  let this := Mem.service pk sql id service_paginate raw in
  let paginate := if negb (is_undefined (Params.paginate params))
                  then Params.paginate params else service_paginate in
  is_null paginate = false →
  is_undefined paginate = false →
  (truthy (prop paginate "default") = true →
     ∃ page, (find this params w).1 = Resolved (page_object page)
       ∧ (prop (Params.query params) "$skip" = VUndef → Page.skip page = VNum 0)
       ∧ (∀ n, Page.limit page = VNum n → 0 ≤ n →
               own (Params.sequelize params) !! "limit" = None →
               Z.of_nat (length (Page.data page)) ≤ n))
  ∧ (truthy (prop paginate "default") = false →
     ∃ rows, (find this params w).1 = Resolved (VArr rows)).
Proof.
  intros this paginate Hnull Hundef.
  assert (find this params w
          = if negb (truthy (prop paginate "default"))
            then then_ (_find this params (λ query, Filters.filter query paginate))
                       (λ page, resolve (VArr (Page.data page))) w
            else then_ (_find this params (λ query, Filters.filter query paginate))
                       (λ page, resolve (page_object page)) w) as ->.
  { unfold find. simpl. fold paginate. clearbody paginate.
    destruct paginate; try done; by destruct (negb _). }
  subst this. unfold then_. rewrite find_on_mem.
  split; intros Hdefault; rewrite Hdefault; simpl.
  - eexists. split; [reflexivity |]. simpl. split.
    + intros Hskip. unfold Filters.parse. by rewrite (prop_or_empty _ _ Hskip).
    + intros n Hlimit Hn Hseq. apply found_length; [| done].
      by rewrite find_options_limit.
  - by eexists.
Qed.

Lemma find_paginates_witness :
  let settings := VObj (<["default" := VNum 2]> ∅) in
  let paged := Mem.service "id" "sqlite" "id" settings true in
  let params := Example.params VUndef VUndef VUndef in
  ((is_null settings = false
    ∧ is_undefined settings = false
    ∧ truthy (prop settings "default") = true
    ∧ prop (Params.query params) "$skip" = VUndef
    ∧ own (Params.sequelize params) !! "limit" = None)
   ∧ ∃ page, (find (utils := Mem.utils) paged params Example.world).1
             = Resolved (page_object page)
       ∧ Page.skip page = VNum 0
       ∧ Page.limit page = VNum 2
       ∧ Z.of_nat (length (Page.data page)) ≤ 2)
  ∧ ((is_null (VObj ∅) = false
      ∧ is_undefined (VObj ∅) = false
      ∧ truthy (prop (VObj ∅) "default") = false)
     ∧ ∃ rows, (find (utils := Mem.utils) (Example.tasks "sqlite") params
                  Example.world).1 = Resolved (VArr rows)).
Proof.
  intros settings paged params. split.
  - split; [repeat split; reflexivity |].
    destruct (find_paginates (utils := Mem.utils) "id" "sqlite" "id" settings true
                params Example.world eq_refl eq_refl) as [Hpaged _].
    destruct (Hpaged eq_refl) as (page & Hpage & Hskip & Hdata).
    assert (Page.limit page = VNum 2) as Hlimit.
    { pose proof (f_equal (λ o, match o with
                                | Resolved v => prop v "limit"
                                | Rejected _ => VUndef
                                end) Hpage) as Hl.
      vm_compute in Hl. symmetry. exact Hl. }
    exists page. split; [exact Hpage |]. split; [exact (Hskip eq_refl) |].
    split; [exact Hlimit |]. apply (Hdata 2 Hlimit); [lia | reflexivity].
  - split; [repeat split; reflexivity |].
    destruct (find_paginates (utils := Mem.utils) "id" "sqlite" "id" (VObj ∅) true
                params Example.world eq_refl eq_refl) as [_ Hbare].
    exact (Hbare eq_refl).
Defined.

(** C7 (as stated) fails: pagination is configured with a default of 1,
    [params.sequelize] carries [limit: 3], and the page has [limit] 1 and
    three records in [data]. *)
Lemma find_limit_overridden :
  let params :=
    {| Params.query := VUndef;
       Params.sequelize := VObj (<["limit" := VNum 3]> ∅);
       Params.paginate := VObj (<["default" := VNum 1]> ∅);
       Params.returning := VUndef |} in
  ∃ page,
    (find (utils := Mem.utils) (Example.tasks "sqlite") params Example.world).1
    = Resolved (page_object page)
    ∧ Page.limit page = VNum 1
    ∧ length (Page.data page) = 3%nat.
Proof.
  intros params.
  exists {| Page.total := 3; Page.limit := VNum 1; Page.skip := VNum 0;
            Page.data := VObj <$> Mem.rows Example.table |}.
  split; [vm_compute; reflexivity |]. split; reflexivity.
Qed.







(** C10.  [patch] never changes what is stored under the configured id
    field.  On every model, each call that [patch] makes is a read or an
    [update] whose values are the data without the id field (and so is
    the values argument on both the returning and the generic path); on
    the in-memory model the id column of the table is, row by row, the
    same after the call as before. *)
Theorem patch_leaves_id_field :
  (∀ S (utils : Utils) (this : Service.t S) id data params,
     emits (leaves (Service.id this)) (patch this id data params))
  ∧ (∀ (utils : Utils) pk sql name paginate raw id data params w,
       column name (db (patch (Mem.service pk sql name paginate raw)
                              id data params w).2)
       = column name (db w)).
Proof.
  split.
  - intros. apply emits_patch.
  - intros. apply (keeps_patch pk (Mem.service pk sql name paginate raw)).
    by exists sql.
Qed.

(* ===================================================================== *)
(** ** Further properties of the adapter *)
(* ===================================================================== *)

(** *** Any model: what a method makes of the ORM's answers *)

Section AnyModel.
Context {S : Type} {utils : Utils} (this : Service.t S).

Lemma find_run params getFilter w :
  _find this params getFilter w
  = (match (findAndCount (Service.Model this)
              (find_options this params getFilter) (db w)).1 with
     | Resolved result =>
         Resolved
           {| Page.total := result.1;
              Page.limit :=
                Filters.f_limit (getFilter (or_else (Params.query params) (VObj ∅))).1;
              Page.skip :=
                or_else (Filters.f_skip
                           (getFilter (or_else (Params.query params) (VObj ∅))).1)
                        (VNum 0);
              Page.data := result.2 |}
     | Rejected e => Rejected (errorHandler e)
     end,
     {| db := (findAndCount (Service.Model this)
                 (find_options this params getFilter) (db w)).2;
        calls := calls w ++ [FindAndCount (find_options this params getFilter)] |}).
Proof.
  unfold _find, find_options. destruct (getFilter _) as [filters query].
  unfold catch_, then_, invoke. cbn [fst snd].
  match goal with |- context [findAndCount ?m ?q ?s] =>
    destruct (findAndCount m q s) as [[result | e] s'] end; reflexivity.
Qed.

Lemma get_run id params w :
  _get this id params w
  = if eager params
    then (match (findAll (Service.Model this) (eager_options id params) (db w)).1 with
          | Resolved [] => Rejected (not_found id)
          | Resolved (first :: _) =>
              Resolved (select (Params.query params) [Service.id this] first)
          | Rejected e => Rejected (errorHandler e)
          end,
          {| db := (findAll (Service.Model this) (eager_options id params) (db w)).2;
             calls := calls w ++ [FindAll (eager_options id params)] |})
    else (match (findById (Service.Model this) id (read_options this params) (db w)).1 with
          | Resolved None => Rejected (not_found id)
          | Resolved (Some instance) =>
              Resolved (select (Params.query params) [Service.id this] instance)
          | Rejected e => Rejected (errorHandler e)
          end,
          {| db := (findById (Service.Model this) id (read_options this params) (db w)).2;
             calls := calls w ++ [FindById id (read_options this params)] |}).
Proof.
  unfold _get, eager, eager_options, read_options.
  destruct (truthy _ && truthy _); unfold catch_, then_, invoke; cbn [fst snd].
  - match goal with |- context [findAll ?m ?q ?s] =>
      destruct (findAll m q s) as [[[| first rest] | e] s'] end; reflexivity.
  - match goal with |- context [findById ?m ?i ?o ?s] =>
      destruct (findById m i o s) as [[[instance |] | e] s'] end; reflexivity.
Qed.

Lemma reads_find params getFilter : emits reads (_find this params getFilter).
Proof.
  intros w. rewrite find_run. by exists [FindAndCount (find_options this params getFilter)];
    split; [| repeat constructor].
Qed.

Lemma reads_get id params : emits reads (_get this id params).
Proof.
  intros w. rewrite get_run. destruct (eager params); eexists [_];
    (split; [reflexivity | by repeat constructor]).
Qed.

Lemma reads_getOrFind id params : emits reads (_getOrFind this id params).
Proof.
  unfold _getOrFind. destruct (is_null id).
  - apply emits_then; [apply reads_find | intros; apply emits_resolve].
  - apply reads_get.
Qed.
End AnyModel.

(** Selecting twice is selecting once, whatever is selected from. *)
Lemma select_twice query fields (r : value) :
  select query fields (select query fields r) = select query fields r.
Proof.
  unfold select. destruct (if truthy query then _ else _) eqn:Hq; try done.
  destruct r; try (unfold pick at 2; by rewrite <- pick_idem at 2).
  f_equal. rewrite <- list_fmap_compose. apply list_fmap_ext.
  intros i item _. simpl. apply pick_idem.
Qed.

(** The one call of [find], whatever the pagination settings are. *)
Lemma find_calls {S} {utils : Utils} (this : Service.t S)
    (params : Params.t) (w : World S) :
  calls (find this params w).2
  = calls w ++ [FindAndCount
                  (find_options this params
                     (λ query, Filters.filter query (settings this params)))].
Proof.
  unfold find. fold (settings this params).
  destruct (settings this params); unfold then_throw, then_;
    try destruct (negb _); rewrite find_run; cbn [fst snd];
    try done;
    by match goal with |- context [findAndCount ?m ?q ?s] =>
         destruct (findAndCount m q s).1 end.
Qed.

(** [get] in terms of the ORM's answer. *)
Lemma get_of_answer {S} {utils : Utils} (this : Service.t S) (id : value)
    (params : Params.t) (w : World S) :
  (eager params = false →
   get this id params w
   = (match (findById (Service.Model this) id (read_options this params) (db w)).1 with
      | Resolved (Some instance) =>
          Resolved (select (Params.query params) [Service.id this] instance)
      | Resolved None => Rejected (not_found id)
      | Rejected e => Rejected (errorHandler e)
      end,
      {| db := (findById (Service.Model this) id (read_options this params) (db w)).2;
         calls := calls w ++ [FindById id (read_options this params)] |}))
  ∧ (eager params = true →
     get this id params w
     = (match (findAll (Service.Model this) (eager_options id params) (db w)).1 with
        | Resolved (first :: _) =>
            Resolved (select (Params.query params) [Service.id this] first)
        | Resolved [] => Rejected (not_found id)
        | Rejected e => Rejected (errorHandler e)
        end,
        {| db := (findAll (Service.Model this) (eager_options id params) (db w)).2;
           calls := calls w ++ [FindAll (eager_options id params)] |})).
Proof.
  unfold get, then_. rewrite get_run.
  split; intros ->.
  - destruct (findById _ _ _ _).1 as [[instance |] | e]; cbn [fst snd]; try done.
    unfold resolve. by rewrite select_twice.
  - destruct (findAll _ _ _).1 as [[| first rest] | e]; cbn [fst snd]; try done.
    unfold resolve. by rewrite select_twice.
Qed.

(** [create] in terms of the ORM's answer. *)
Lemma create_of_answer {S} (this : Service.t S) (data : value) (params : Params.t)
    (w : World S) :
  (∀ items, data = VArr items →
     Adapter.create this data params w
     = (match (bulkCreate (Service.Model this) items (read_options this params) (db w)).1 with
        | Resolved created => Resolved (VArr (shaped this params <$> created))
        | Rejected e => Rejected (errorHandler e)
        end,
        {| db := (bulkCreate (Service.Model this) items (read_options this params) (db w)).2;
           calls := calls w ++ [BulkCreate items (read_options this params)] |}))
  ∧ (isArray data = false →
     Adapter.create this data params w
     = (match (Orm.create (Service.Model this) data (read_options this params) (db w)).1 with
        | Resolved created => Resolved (shaped this params created)
        | Rejected e => Rejected (errorHandler e)
        end,
        {| db := (Orm.create (Service.Model this) data (read_options this params) (db w)).2;
           calls := calls w ++ [Create data (read_options this params)] |})).
Proof.
  unfold read_options. split.
  - intros items ->.
    unfold Adapter.create, shaped, catch_, then_, invoke. cbn [fst snd].
    match goal with |- context [bulkCreate ?m ?i ?o ?s] =>
      destruct (bulkCreate m i o s) as [[created | e] s'] end; cbn [fst snd]; [| done].
    by destruct (is_false _); cbn; [rewrite list_fmap_id |].
  - intros Hdata.
    assert (Adapter.create this data params w
            = catch_
                (then_ (invoke (Create data (assign (<["raw" := VBool (Service.raw this)]> ∅)
                                               (Params.sequelize params)))
                          (Orm.create (Service.Model this) data
                             (assign (<["raw" := VBool (Service.raw this)]> ∅)
                                     (Params.sequelize params))))
                   (λ result, resolve (shaped this params result)))
                errorHandler w) as ->.
    { unfold Adapter.create, shaped. destruct data; try done;
        unfold catch_, then_, invoke; cbn [fst snd];
        match goal with |- context [Orm.create ?m ?d ?o ?s] =>
          destruct (Orm.create m d o s) as [[created | e] s'] end; cbn [fst snd];
        try done; by destruct (is_false _). }
    unfold catch_, then_, invoke. cbn [fst snd].
    match goal with |- context [Orm.create ?m ?d ?o ?s] =>
      by destruct (Orm.create m d o s) as [[created | e] s'] end.
Qed.

(** *** Any model: the runs of [patch] *)

Section PatchRuns.
Context {S : Type} {utils : Utils} (this : Service.t S).

Lemma write_options_where id params :
  write_options this id params !! "where" = Some (VObj (target this id params)).
Proof.
  unfold write_options, assign. apply lookup_union_Some_l. simpl.
  apply lookup_insert_eq.
Qed.

Lemma write_options_other id params k :
  k ≠ "where" →
  write_options this id params !! k = own (Params.sequelize params) !! k.
Proof.
  intros Hk. unfold write_options, assign.
  rewrite lookup_union_r by (simpl; by rewrite lookup_insert_ne).
  by rewrite (right_id_L ∅ (∪)).
Qed.

Lemma patch_returning_run id data params w :
  String.eqb (dialect (Service.Model this)) "postgres"
  && negb (is_false (Params.returning params)) = true →
  patch this id data params w
  = (match (Orm.update (Service.Model this) (omit data [Service.id this])
              (<["returning" := VBool true]> (write_options this id params)) (db w)).1 with
     | Resolved results =>
         if is_null id
         then Resolved (select (Params.query params) [Service.id this] (VArr results.2))
         else match results.2 with
              | [] => Rejected (not_found id)
              | first :: _ =>
                  Resolved (select (Params.query params) [Service.id this] first)
              end
     | Rejected e => Rejected (errorHandler e)
     end,
     {| db := (Orm.update (Service.Model this) (omit data [Service.id this])
                 (<["returning" := VBool true]> (write_options this id params)) (db w)).2;
        calls := calls w ++ [Update (omit data [Service.id this])
                               (<["returning" := VBool true]>
                                  (write_options this id params))] |}).
Proof.
  intros Hpath. unfold patch. rewrite Hpath. fold (write_options this id params).
  unfold catch_, then_, invoke. cbn [fst snd].
  match goal with |- context [Orm.update ?m ?v ?o ?s] =>
    destruct (Orm.update m v o s) as [[results | e] s'] end; cbn [fst snd]; [| done].
  destruct (is_null id); [done |]. by destruct results.2.
Qed.

Lemma patch_generic_run id data params w :
  String.eqb (dialect (Service.Model this)) "postgres"
  && negb (is_false (Params.returning params)) = false →
  patch this id data params w
  = match (if is_null id
           then then_ (_find this (after_select this params) plain)
                  (λ page, resolve ((λ current, prop current (Service.id this))
                                      <$> Page.data page)) w
           else (Resolved [id], w)) with
    | (Rejected e, listed) => (Rejected (errorHandler e), listed)
    | (Resolved ids, listed) =>
        let answer := Orm.update (Service.Model this) (omit data [Service.id this])
                        (write_options this id params) (db listed) in
        let written := {| db := answer.2;
                          calls := calls listed
                                   ++ [Update (omit data [Service.id this])
                                         (write_options this id params)] |} in
        match answer.1 with
        | Rejected e => (Rejected (errorHandler e), written)
        | Resolved _ =>
            if is_false (Params.returning params)
            then (Resolved (VArr []), written)
            else match _getOrFind this id (re_query (Service.id this) ids params)
                         written with
                 | (Resolved r, w') =>
                     (Resolved (select (Params.query params) [Service.id this] r), w')
                 | (Rejected e, w') => (Rejected (errorHandler e), w')
                 end
        end
    end.
Proof.
  intros Hpath. unfold patch. rewrite Hpath. fold (write_options this id params).
  unfold catch_ at 1. unfold then_ at 1 2.
  destruct (is_null id).
  - destruct (then_ _ _ w) as [[ids | e] listed]; [| done].
    unfold then_, invoke. cbn [fst snd].
    match goal with |- context [Orm.update ?m ?v ?o ?s] =>
      destruct (Orm.update m v o s) as [[results | e] s'] end; cbn [fst snd]; [| done].
    destruct (is_false _); cbn [negb].
    + unfold resolve, select. by destruct (if truthy _ then _ else _).
    + unfold re_query. by destruct (_getOrFind _ _ _ _) as [[r | e] w'].
  - unfold resolve at 1. unfold then_, invoke. cbn [fst snd].
    match goal with |- context [Orm.update ?m ?v ?o ?s] =>
      destruct (Orm.update m v o s) as [[results | e] s'] end; cbn [fst snd]; [| done].
    destruct (is_false _); cbn [negb].
    + unfold resolve, select. by destruct (if truthy _ then _ else _).
    + unfold re_query. by destruct (_getOrFind _ _ _ _) as [[r | e] w'].
Qed.
End PatchRuns.

(** *** Any model: the runs of [remove], and where clauses *)

Section RemoveRuns.
Context {S : Type} {utils : Utils} (this : Service.t S).

Lemma remove_run id params w :
  remove this id params w
  = if is_false (Params.returning params)
    then (match (destroy (Service.Model this) (write_options this id params) (db w)).1 with
          | Resolved _ => Resolved (VArr [])
          | Rejected e => Rejected (errorHandler e)
          end,
          {| db := (destroy (Service.Model this) (write_options this id params) (db w)).2;
             calls := calls w ++ [Destroy (write_options this id params)] |})
    else match _getOrFind this id (after_select this params) w with
         | (Rejected e, looked) => (Rejected (errorHandler e), looked)
         | (Resolved data, looked) =>
             (match (destroy (Service.Model this) (write_options this id params)
                       (db looked)).1 with
              | Resolved _ =>
                  Resolved (select (Params.query params) [Service.id this] data)
              | Rejected e => Rejected (errorHandler e)
              end,
              {| db := (destroy (Service.Model this) (write_options this id params)
                          (db looked)).2;
                 calls := calls looked ++ [Destroy (write_options this id params)] |})
         end.
Proof.
  unfold remove. fold (write_options this id params).
  destruct (is_false (Params.returning params)); cbn [negb].
  - unfold catch_, then_, invoke. cbn [fst snd].
    match goal with |- context [destroy ?m ?o ?s] =>
      destruct (destroy m o s) as [[n | e] s'] end; cbn [fst snd]; [| done].
    unfold resolve, select. by destruct (if truthy _ then _ else _).
  - unfold catch_, then_.
    destruct (_getOrFind this id (after_select this params) w)
      as [[data | e] looked]; [| done].
    unfold invoke.
    match goal with |- context [destroy ?m ?o ?s] =>
      by destruct (destroy m o s) as [[n | e] s'] end.
Qed.

Lemma target_lookup id params k :
  k ≠ Service.id this ∨ is_null id = true →
  target this id params !! k
  = if decide (k ∈ Filters.PROPERTIES) then None
    else own (or_else (Params.query params) (VObj ∅)) !! k.
Proof.
  intros Hk. unfold target, assign. cbn [Filters.filter snd own].
  rewrite (right_id_L ∅ (∪)).
  destruct (is_null id) eqn:Hnull; cbn [negb].
  - apply omit_lookup_in.
  - destruct Hk as [Hk | ?]; [| done].
    rewrite lookup_insert_ne by done. apply omit_lookup_in.
Qed.

Lemma target_pins id params :
  is_null id = false → target this id params !! Service.id this = Some id.
Proof. intros Hnull. unfold target. rewrite Hnull. apply lookup_insert_eq. Qed.
End RemoveRuns.

(** The one write of a run is made with the options of the call. *)
Ltac as_told :=
  right; eexists; split; [done |];
  split; [apply write_options_where | intros; by apply write_options_other].

(** *** The in-memory model: reading back what was written *)

Section ReadBack.
Context {utils : Utils}.
Variables (pk sql : string) (paginate : value) (raw : bool).
#[local] Abbreviation this := (Mem.service pk sql pk paginate raw).



Lemma get_not_there id_ params w :
  List.find (Mem.has_key pk id_) (Mem.rows (db w)) = None →
  eager params = false →
  (get this id_ params w).1 = Rejected (not_found id_).
Proof.
  intros Hfind Heager. unfold get, then_.
  by rewrite (get_missing pk sql paginate raw id_ params w).
Qed.


Lemma patch_db id_ data params w :
  db (patch this id_ data params w).2 = updated this id_ data params (db w).
Proof.
  destruct (String.eqb (dialect (Service.Model this)) "postgres"
            && negb (is_false (Params.returning params))) eqn:Hpath.
  - rewrite patch_returning_run by done. cbn [snd db].
    cbn [Service.Model Mem.service Orm.update Mem.model Mem.mem_update snd].
    unfold updated, write_options, patched_row. by rewrite where_of_returning.
  - rewrite patch_generic_run by done.
    assert (∃ ids log, (if is_null id_
                        then then_ (_find this (after_select this params) plain)
                               (λ page, resolve ((λ current, prop current (Service.id this))
                                                   <$> Page.data page)) w
                        else (Resolved [id_], w))
                       = (Resolved ids, {| db := db w; calls := log |}))
      as (ids & log & ->).
    { destruct (is_null id_).
      - unfold then_. rewrite find_on_mem. by eexists _, _.
      - exists [id_], (calls w). by destruct w. }
    cbn zeta. cbn [db calls].
    cbn [Service.Model Mem.service Orm.update Mem.model Mem.mem_update fst snd].
    assert ({| Mem.columns := Mem.columns (db w);
               Mem.rows :=
                 (λ row, if Mem.matches
                              (prop (VObj (write_options this id_ params)) "where") row
                         then Mem.writable (Mem.columns (db w))
                                (omit data [Service.id this]) ∪ row
                         else row)
                   <$> Mem.rows (db w);
               Mem.serial := Mem.serial (db w) |}
            = updated this id_ data params (db w)) as Hupdated.
    { unfold updated, write_options, patched_row.
      by rewrite where_of_options. }
    destruct (is_false (Params.returning params)); [by rewrite Hupdated |].
    match goal with |- context [_getOrFind ?t ?i ?p ?w'] =>
      pose proof (getOrFind_reads pk sql pk paginate raw i p w') as Hreads;
      destruct (_getOrFind t i p w') as [[r | e] w''] end;
      cbn [snd db] in *; by rewrite Hreads, Hupdated.
Qed.
End ReadBack.

(** *** The constructor *)

(** X1.  [init] fails exactly when the options or the model are
    missing, with the message of the [throw] that applies.  A service
    it builds has the model it was given, a name for the id field that
    is not empty (the one given, or [id]), pagination settings that are
    truthy (those given, or the empty object), the events it was given,
    and [raw] set unless the option is [false] itself. *)
Theorem init_validates_and_defaults {S} (options : option (Options.t S)) :
  (∀ message, init options = inl message →
     (options = None ∧ message = "Sequelize options have to be provided")
     ∨ (∃ given, options = Some given ∧ Options.Model given = None
                 ∧ message = "You must provide a Sequelize Model"))
  ∧ (∀ given M, options = Some given → Options.Model given = Some M →
       ∃ service, init options = inr service
         ∧ Service.Model service = M
         ∧ Service.id service ≠ ""
         ∧ (∀ name, Options.id given = Some name → name ≠ "" → Service.id service = name)
         ∧ (Options.id given = None → Service.id service = "id")
         ∧ truthy (Service.paginate service) = true
         ∧ (truthy (Options.paginate given) = true →
            Service.paginate service = Options.paginate given)
         ∧ Service.events service = Options.events given
         ∧ (Service.raw service = false ↔ Options.raw given = VBool false)).
Proof.
  split.
  - intros message Hinit. destruct options as [given |]; simpl in Hinit.
    + destruct (Options.Model given) eqn:HM; [done |].
      right. exists given. by injection Hinit as <-.
    + left. by injection Hinit as <-.
  - intros given M -> HM. simpl. rewrite HM. eexists. split; [reflexivity |].
    simpl. split; [done |]. split; [| split; [| split; [| split; [| split; [| split]]]]].
    + destruct (Options.id given) as [name |]; [| done].
      destruct (String.eqb name "") eqn:Hname; [done |]. by apply String.eqb_neq.
    + intros name -> Hname. apply String.eqb_neq in Hname. by rewrite Hname.
    + by intros ->.
    + unfold or_else. by destruct (truthy (Options.paginate given)) eqn:Hp.
    + intros Hp. unfold or_else. by rewrite Hp.
    + done.
    + destruct (Options.raw given) as [| | [] | | | | |]; simpl; split; done.
Qed.

Lemma init_validates_and_defaults_witness :
  let given : Options.t Mem.DB :=
    {| Options.Model := Some (Mem.model "id" "sqlite");
       Options.paginate := VNull;
       Options.id := None;
       Options.events := VUndef;
       Options.raw := VUndef |} in
  let named : Options.t Mem.DB :=
    {| Options.Model := Some (Mem.model "uuid" "sqlite");
       Options.paginate := VObj (<["default" := VNum 10]> ∅);
       Options.id := Some "uuid";
       Options.events := VUndef;
       Options.raw := VBool false |} in
  let bare : Options.t Mem.DB :=
    {| Options.Model := None;
       Options.paginate := VUndef;
       Options.id := Some "uuid";
       Options.events := VUndef;
       Options.raw := VBool false |} in
  (init (Some bare) = inl "You must provide a Sequelize Model"
   ∧ ((Some bare = None
       ∧ "You must provide a Sequelize Model" = "Sequelize options have to be provided")
      ∨ (∃ o, Some bare = Some o ∧ Options.Model o = None
              ∧ "You must provide a Sequelize Model"
                = "You must provide a Sequelize Model")))
  ∧ ((Options.Model given = Some (Mem.model "id" "sqlite")
      ∧ Options.id given = None)
     ∧ ∃ service, init (Some given) = inr service
         ∧ Service.Model service = Mem.model "id" "sqlite"
         ∧ Service.id service = "id"
         ∧ truthy (Service.paginate service) = true)
  ∧ ((Options.Model named = Some (Mem.model "uuid" "sqlite")
      ∧ Options.id named = Some "uuid"
      ∧ "uuid" ≠ ""
      ∧ truthy (Options.paginate named) = true)
     ∧ ∃ service, init (Some named) = inr service
         ∧ Service.id service = "uuid"
         ∧ Service.paginate service = VObj (<["default" := VNum 10]> ∅)
         ∧ Service.raw service = false).
Proof.
  intros given named bare. split; [| split].
  - split; [reflexivity |].
    destruct (init_validates_and_defaults (Some bare)) as [Hfails _].
    exact (Hfails _ eq_refl).
  - split; [split; reflexivity |].
    destruct (init_validates_and_defaults (Some given)) as [_ Hbuilds].
    destruct (Hbuilds given (Mem.model "id" "sqlite") eq_refl eq_refl)
      as (service & Hinit & HM & _ & _ & Hid & Hp & _).
    exists service. repeat split; [exact Hinit | exact HM | exact (Hid eq_refl) | exact Hp].
  - assert ("uuid" ≠ "") as Hname by discriminate.
    split; [split; [reflexivity | split; [reflexivity | split; [exact Hname | reflexivity]]] |].
    destruct (init_validates_and_defaults (Some named)) as [_ Hbuilds].
    destruct (Hbuilds named (Mem.model "uuid" "sqlite") eq_refl eq_refl)
      as (service & Hinit & _ & _ & Hid & _ & _ & Hp & _ & Hraw).
    exists service. split; [exact Hinit |].
    split; [exact (Hid "uuid" eq_refl Hname) |].
    split; [exact (Hp eq_refl) |].
    apply Hraw. reflexivity.
Defined.

(** *** [find] *)

(** X2.  [find] asks the ORM once, with [findAndCount], and hands back
    what it answers as it is: with pagination settings that have a
    default, a page whose [total] is the ORM's count and whose [data]
    are the ORM's rows, with the limit and the skip of the filters;
    without a default the ORM's rows alone.  No selection is applied to
    the rows.  What the ORM rejects with is rejected through
    [errorHandler]. *)
Theorem find_hands_back_what_the_orm_found {S} {utils : Utils} (this : Service.t S)
    (params : Params.t) (w : World S) :
  let paginate := settings this params in
  let getFilter := λ query, Filters.filter query paginate in
  let q := find_options this params getFilter in
  let filters := (getFilter (or_else (Params.query params) (VObj ∅))).1 in
  let answer := findAndCount (Service.Model this) q (db w) in
  (find this params w).2 = {| db := answer.2; calls := calls w ++ [FindAndCount q] |}
  ∧ (is_null paginate = false →
     is_undefined paginate = false →
     (∀ count rows,
        answer.1 = Resolved (count, rows) →
        (find this params w).1
        = Resolved (if truthy (prop paginate "default")
                    then page_object
                           {| Page.total := count;
                              Page.limit := Filters.f_limit filters;
                              Page.skip := or_else (Filters.f_skip filters) (VNum 0);
                              Page.data := rows |}
                    else VArr rows))
     ∧ (∀ e, answer.1 = Rejected e →
             (find this params w).1 = Rejected (errorHandler e))).
Proof.
  intros paginate getFilter q filters answer.
  assert (find this params w
          = match paginate with
            | VNull | VUndef =>
                then_throw (_find this params getFilter)
                  (type_error "Cannot read property 'default'") w
            | _ =>
                if negb (truthy (prop paginate "default"))
                then then_ (_find this params getFilter)
                       (λ page, resolve (VArr (Page.data page))) w
                else then_ (_find this params getFilter)
                       (λ page, resolve (page_object page)) w
            end) as ->.
  { unfold find. fold (settings this params). fold paginate. fold getFilter.
    destruct paginate; try done; by destruct (negb _). }
  split.
  - unfold then_throw, then_. rewrite find_run. fold q answer.
    destruct paginate; try done;
      destruct (negb _); cbn [fst snd]; by destruct answer.1.
  - intros Hnull Hundef. unfold then_. rewrite find_run. fold q answer.
    split.
    + intros count rows ->.
      destruct paginate; try done; by destruct (truthy _).
    + intros e ->.
      destruct paginate; try done; by destruct (negb _).
Qed.

Lemma find_hands_back_what_the_orm_found_witness :
  let params := Example.params (VObj (<["status" := VStr "open"]> ∅)) VUndef VUndef in
  let paged := Mem.service "id" "sqlite" "id" (VObj (<["default" := VNum 1]> ∅)) true in
  ((is_null (settings paged params) = false
    ∧ is_undefined (settings paged params) = false)
   ∧ (find (utils := Mem.utils) paged params Example.world).1
     = Resolved (page_object
                   {| Page.total := 2;
                      Page.limit := VNum 1;
                      Page.skip := VNum 0;
                      Page.data := [VObj (Example.task 1 "write" "open")] |}))
  ∧ ((is_null (settings Example.offline params) = false
      ∧ is_undefined (settings Example.offline params) = false)
     ∧ (find (utils := Mem.utils) Example.offline params Example.nowhere).1
       = Rejected (errorHandler Example.unreachable)).
Proof.
  intros params paged. split.
  - split; [split; reflexivity |].
    destruct (find_hands_back_what_the_orm_found (utils := Mem.utils) paged params
                Example.world) as [_ Hfind].
    destruct (Hfind eq_refl eq_refl) as [Hfound _].
    etrans; [apply (Hfound 2 [VObj (Example.task 1 "write" "open")]) |];
      vm_compute; reflexivity.
  - split; [split; reflexivity |].
    destruct (find_hands_back_what_the_orm_found (utils := Mem.utils) Example.offline
                params Example.nowhere) as [_ Hfind].
    destruct (Hfind eq_refl eq_refl) as [_ Hfails].
    exact (Hfails Example.unreachable eq_refl).
Defined.

(** X3.  The options of the [findAndCount] that [find] makes: what
    [params.sequelize] sets replaces what the query gave for [where],
    [order], [limit], [offset] and [raw], and is passed on for every
    other option; but a [$select] of the query replaces the
    [attributes] of [params.sequelize], and it is passed as it is,
    without the id field.  Where [params.sequelize] says nothing, the
    where clause is [utils.getWhere] of the query without the filter
    properties, the limit and the offset are those of the filters, and
    [raw] is the service's. *)
Theorem find_options_precedence {S} {utils : Utils} (this : Service.t S)
    (params : Params.t) (w : World S) :
  let paginate := settings this params in
  let filtered := Filters.filter (or_else (Params.query params) (VObj ∅)) paginate in
  ∃ q, calls (find this params w).2 = calls w ++ [FindAndCount q]
    ∧ (∀ k v, own (Params.sequelize params) !! k = Some v →
              k ≠ "attributes" ∨ truthy (Filters.f_select filtered.1) = false →
              q !! k = Some v)
    ∧ (truthy (Filters.f_select filtered.1) = true →
       q !! "attributes" = Some (prop (or_else (Params.query params) (VObj ∅)) "$select"))
    ∧ (own (Params.sequelize params) !! "where" = None →
       q !! "where" = Some (getWhere (VObj (omit (or_else (Params.query params) (VObj ∅))
                                             Filters.PROPERTIES))))
    ∧ (own (Params.sequelize params) !! "limit" = None →
       q !! "limit" = Some (Filters.f_limit filtered.1))
    ∧ (own (Params.sequelize params) !! "offset" = None →
       q !! "offset" = Some (Filters.f_skip filtered.1))
    ∧ (own (Params.sequelize params) !! "raw" = None →
       q !! "raw" = Some (VBool (Service.raw this))).
Proof.
  intros paginate filtered.
  exists (find_options this params (λ query, Filters.filter query paginate)).
  split.
  { by rewrite find_calls. }
  unfold find_options. fold filtered.
  destruct filtered as [filters query] eqn:Hf. cbn [fst snd].
  assert (query = omit (or_else (Params.query params) (VObj ∅)) Filters.PROPERTIES)
    as Hquery by (by injection Hf).
  assert (Filters.f_select filters = prop (or_else (Params.query params) (VObj ∅)) "$select")
    as Hselect by (injection Hf as <- _; done).
  unfold assign.
  split; [| split; [| split; [| split; [| split]]]].
  - intros k v Hk Hor. destruct (truthy (Filters.f_select filters)) eqn:Hs.
    + destruct Hor as [Hne | ?]; [| done].
      rewrite lookup_insert_ne by done. by apply lookup_union_Some_l.
    + by apply lookup_union_Some_l.
  - intros ->. by rewrite lookup_insert_eq, Hselect.
  - intros Hk. rewrite <- Hquery.
    destruct (truthy _); [rewrite lookup_insert_ne by done |];
      rewrite lookup_union_r by done; by rewrite lookup_insert_eq.
  - intros Hk.
    destruct (truthy _); [rewrite lookup_insert_ne by done |];
      rewrite lookup_union_r by done; by simplify_map_eq.
  - intros Hk.
    destruct (truthy _); [rewrite lookup_insert_ne by done |];
      rewrite lookup_union_r by done; by simplify_map_eq.
  - intros Hk.
    destruct (truthy _); [rewrite lookup_insert_ne by done |];
      rewrite lookup_union_r by done; by simplify_map_eq.
Qed.

Lemma find_options_precedence_witness :
  let query := VObj (<["status" := VStr "open"]>
                     (<["$select" := VArr [VStr "name"]]>
                      (<["$limit" := VNum 1]> ∅))) in
  let sequelize := VObj (<["limit" := VNum 10]>
                         (<["attributes" := VArr [VStr "status"]]> ∅)) in
  let params := Example.params query sequelize VUndef in
  let plainly := Example.params query VUndef VUndef in
  let filtered := Filters.filter query (settings (Example.tasks "sqlite") params) in
  ((own sequelize !! "limit" = Some (VNum 10)
    ∧ truthy (Filters.f_select filtered.1) = true
    ∧ own sequelize !! "where" = None
    ∧ own sequelize !! "offset" = None
    ∧ own sequelize !! "raw" = None)
   ∧ ∃ q, calls (find (utils := Mem.utils) (Example.tasks "sqlite") params
                   Example.world).2 = calls Example.world ++ [FindAndCount q]
       ∧ q !! "limit" = Some (VNum 10)
       ∧ q !! "attributes" = Some (VArr [VStr "name"])
       ∧ q !! "where" = Some (VObj (<["status" := VStr "open"]> ∅))
       ∧ q !! "offset" = Some VUndef
       ∧ q !! "raw" = Some (VBool true))
  ∧ (own (Params.sequelize plainly) !! "limit" = None
     ∧ ∃ q, calls (find (utils := Mem.utils) (Example.tasks "sqlite") plainly
                     Example.world).2 = calls Example.world ++ [FindAndCount q]
         ∧ q !! "limit" = Some (VNum 1)).
Proof.
  intros query sequelize params plainly filtered. split.
  - split; [repeat split; reflexivity |].
    destruct (find_options_precedence (utils := Mem.utils) (Example.tasks "sqlite") params
                Example.world)
      as (q & Hcalls & Hsequelize & Hselect & Hwhere & _ & Hoffset & Hraw).
    exists q. split; [exact Hcalls |].
    split; [apply Hsequelize; [reflexivity | by left] |].
    split; [etrans; [exact (Hselect eq_refl) | vm_compute; reflexivity] |].
    split; [etrans; [exact (Hwhere eq_refl) | vm_compute; reflexivity] |].
    split; [etrans; [exact (Hoffset eq_refl) | vm_compute; reflexivity] |].
    exact (Hraw eq_refl).
  - split; [reflexivity |].
    destruct (find_options_precedence (utils := Mem.utils) (Example.tasks "sqlite") plainly
                Example.world) as (q & Hcalls & _ & _ & _ & Hlimit & _).
    exists q. split; [exact Hcalls |].
    etrans; [exact (Hlimit eq_refl) | vm_compute; reflexivity].
Defined.

(** *** [get] *)

(** X4.  [get] asks the ORM once: [findById] with the service's [raw]
    and [params.sequelize], or, with eager loading, [findAll].  It
    resolves with the instance found (the first one of [findAll])
    reduced to the selection, rejects with NotFound when there is none,
    and rejects through [errorHandler] with what the ORM rejects
    with. *)
Theorem get_asks_once {S} {utils : Utils} (this : Service.t S) (id : value)
    (params : Params.t) (w : World S) :
  let byId := findById (Service.Model this) id (read_options this params) (db w) in
  let all := findAll (Service.Model this) (eager_options id params) (db w) in
  (eager params = false →
   get this id params w
   = (match byId.1 with
      | Resolved (Some instance) =>
          Resolved (select (Params.query params) [Service.id this] instance)
      | Resolved None => Rejected (not_found id)
      | Rejected e => Rejected (errorHandler e)
      end,
      {| db := byId.2; calls := calls w ++ [FindById id (read_options this params)] |}))
  ∧ (eager params = true →
     get this id params w
     = (match all.1 with
        | Resolved (first :: _) =>
            Resolved (select (Params.query params) [Service.id this] first)
        | Resolved [] => Rejected (not_found id)
        | Rejected e => Rejected (errorHandler e)
        end,
        {| db := all.2; calls := calls w ++ [FindAll (eager_options id params)] |})).
Proof.
  intros byId all. apply get_of_answer.
Qed.

Lemma get_asks_once_witness :
  let lazily := Example.params VUndef VUndef VUndef in
  let eagerly := Example.params VUndef (VObj (<["include" := VArr [VStr "owner"]]> ∅))
                   VUndef in
  (eager lazily = false
   ∧ get (utils := Mem.utils) (Example.tasks "sqlite") (VNum 2) lazily Example.world
     = (Resolved (VObj (Example.task 2 "review" "open")),
        {| db := Example.table;
           calls := [FindById (VNum 2) (<["raw" := VBool true]> ∅)] |}))
  ∧ (eager eagerly = true
     ∧ (get (utils := Mem.utils) Example.offline (VNum 2) eagerly Example.nowhere).1
       = Rejected (errorHandler Example.unreachable)).
Proof.
  intros lazily eagerly. split.
  - split; [reflexivity |].
    destruct (get_asks_once (utils := Mem.utils) (Example.tasks "sqlite") (VNum 2)
                lazily Example.world) as [Hlazy _].
    etrans; [exact (Hlazy eq_refl) | vm_compute; reflexivity].
  - split; [reflexivity |].
    destruct (get_asks_once (utils := Mem.utils) Example.offline (VNum 2)
                eagerly Example.nowhere) as [_ Heager].
    exact (f_equal fst (Heager eq_refl)).
Defined.

(** X5.  The id field is always part of what [get] returns: with a
    [$select] list, the record resolved with holds, under the id field
    and under every listed field, what the instance holds there, and
    nothing under any other field. *)
Theorem get_returns_the_id_field {S} {utils : Utils} (this : Service.t S) (id : value)
    (params : Params.t) (w : World S) (fields : list value) (row : obj) :
  eager params = false →
  (findById (Service.Model this) id (read_options this params) (db w)).1
  = Resolved (Some (VObj row)) →
  prop (Params.query params) "$select" = VArr fields →
  ∃ chosen : obj,
    (get this id params w).1 = Resolved (VObj chosen)
    ∧ prop (VObj chosen) (Service.id this) = prop (VObj row) (Service.id this)
    ∧ (∀ k, VStr k ∈ fields → prop (VObj chosen) k = prop (VObj row) k)
    ∧ (∀ k, k ≠ Service.id this → VStr k ∉ fields → chosen !! k = None).
Proof.
  intros Heager Hfound Hselect.
  destruct (get_of_answer this id params w) as [Hrun _].
  rewrite (Hrun Heager), Hfound. cbn [fst].
  assert (truthy (Params.query params) = true) as Hq.
  { destruct (Params.query params); try done. }
  unfold select. rewrite Hq, Hselect. unfold pick.
  eexists. split; [reflexivity |].
  assert (∀ k, Some k ∈ key_of <$> (fields ++ (VStr <$> [Service.id this]))
               ↔ VStr k ∈ fields ∨ k = Service.id this) as Hin.
  { intros k. rewrite fmap_app, elem_of_app. simpl.
    rewrite list_elem_of_fmap, list_elem_of_singleton. split.
    - intros [(v & Hk & Hv) | Hk]; [| right; by injection Hk].
      left. destruct v; try done. by injection Hk as ->.
    - intros [Hk | ->]; [| by right]. left. by exists (VStr k). }
  split; [| split].
  - unfold prop at 1. rewrite pick_fold_lookup.
    rewrite decide_True by (apply Hin; by right). done.
  - intros k Hk. unfold prop at 1. rewrite pick_fold_lookup.
    rewrite decide_True by (apply Hin; by left). done.
  - intros k Hne Hk. rewrite pick_fold_lookup.
    rewrite decide_False; [done |]. rewrite Hin. by intros [? | ?].
Qed.

Lemma get_returns_the_id_field_witness :
  let params := Example.params (VObj (<["$select" := VArr [VStr "name"]]> ∅))
                  VUndef VUndef in
  let this := Example.tasks "sqlite" in
  let row := Example.task 2 "review" "open" in
  (eager params = false
   ∧ (findById (Service.Model this) (VNum 2) (read_options this params)
        (db Example.world)).1 = Resolved (Some (VObj row))
   ∧ prop (Params.query params) "$select" = VArr [VStr "name"])
  ∧ ∃ chosen : obj,
      (get (utils := Mem.utils) this (VNum 2) params Example.world).1
      = Resolved (VObj chosen)
      ∧ prop (VObj chosen) "id" = VNum 2
      ∧ prop (VObj chosen) "name" = VStr "review"
      ∧ chosen !! "status" = None.
Proof.
  intros params this row. split; [repeat split; reflexivity |].
  destruct (get_returns_the_id_field (utils := Mem.utils) this (VNum 2) params
              Example.world [VStr "name"] row eq_refl eq_refl eq_refl)
    as (chosen & Hget & Hid & Hlisted & Hother).
  exists chosen. split; [exact Hget |].
  split; [exact Hid |].
  split; [apply (Hlisted "name"); apply list_elem_of_singleton; reflexivity |].
  apply Hother; [discriminate |].
  intros Hin. apply list_elem_of_singleton in Hin. discriminate.
Defined.

(** *** [create] *)

(** X6.  [create] asks the ORM once and hands the data over as it is:
    [bulkCreate] for an array (an empty one too), [create] for
    anything else, with the service's [raw] and [params.sequelize] as
    options.  What the ORM gives back is shaped item by item; what it
    rejects with is rejected through [errorHandler]. *)
Theorem create_asks_once {S} (this : Service.t S) (data : value) (params : Params.t)
    (w : World S) :
  let options := read_options this params in
  (∀ items, data = VArr items →
     let answer := bulkCreate (Service.Model this) items options (db w) in
     create this data params w
     = (match answer.1 with
        | Resolved created => Resolved (VArr (shaped this params <$> created))
        | Rejected e => Rejected (errorHandler e)
        end,
        {| db := answer.2; calls := calls w ++ [BulkCreate items options] |}))
  ∧ (isArray data = false →
     let answer := Orm.create (Service.Model this) data options (db w) in
     create this data params w
     = (match answer.1 with
        | Resolved created => Resolved (shaped this params created)
        | Rejected e => Rejected (errorHandler e)
        end,
        {| db := answer.2; calls := calls w ++ [Create data options] |})).
Proof. apply create_of_answer. Qed.

Lemma create_asks_once_witness :
  let this := Example.tasks "sqlite" in
  let params := Example.params VUndef VUndef VUndef in
  let taken := VObj (<["id" := VNum 2]> (<["name" := VStr "plan"]> ∅)) in
  (isArray taken = false
   ∧ create this taken params Example.world
     = (Rejected (Error Conflict (VNum 2)),
        {| db := Example.table;
           calls := [Create taken (<["raw" := VBool true]> ∅)] |}))
  ∧ create this (VArr []) params Example.world
    = (Resolved (VArr []),
       {| db := Example.table; calls := [BulkCreate [] (<["raw" := VBool true]> ∅)] |}).
Proof.
  intros this params taken. split.
  - split; [reflexivity |].
    destruct (create_asks_once this taken params Example.world) as [_ Hsingle].
    etrans; [exact (Hsingle eq_refl) | vm_compute; reflexivity].
  - destruct (create_asks_once this (VArr []) params Example.world) as [Hbulk _].
    etrans; [exact (Hbulk [] eq_refl) | vm_compute; reflexivity].
Defined.

(** *** [update] *)

(** X7.  [update] with data that is not an array looks the instance up
    with [findById] and [raw: false], whatever the service and
    [params.sequelize] say, and writes only when it found one and could
    read the data: when the lookup is rejected, finds nothing (NotFound),
    or the data is [null] or [undefined] while the instance has fields
    (a [TypeError]), the promise is rejected and no other call is made.
    Otherwise [instance.update] is called once, and [update] resolves
    with what it gives back, reduced to the selection, or rejects
    through [errorHandler] with what it rejects with. *)
Theorem update_writes_only_what_it_found {S} (this : Service.t S) (id data : value)
    (params : Params.t) (w : World S) :
  let lookup := findById (Service.Model this) id forced (db w) in
  let looked := {| db := lookup.2; calls := calls w ++ [FindById id forced] |} in
  isArray data = false →
  (∀ e, lookup.1 = Rejected e →
        update this id data params w = (Rejected (errorHandler e), looked))
  ∧ (lookup.1 = Resolved None →
     update this id data params w = (Rejected (not_found id), looked))
  ∧ (∀ instance,
       lookup.1 = Resolved (Some instance) →
       data = VNull ∨ data = VUndef →
       own (toJSON instance) ≠ ∅ →
       ∃ e, update this id data params w = (Rejected e, looked)
            ∧ kind_of e = TypeError)
  ∧ (∀ instance copy,
       lookup.1 = Resolved (Some instance) →
       replacement data (own (toJSON instance)) = inr copy →
       let write := instance_update (Service.Model this) instance copy
                      (read_options this params) lookup.2 in
       update this id data params w
       = (match write.1 with
          | Resolved revised =>
              Resolved (select (Params.query params) [Service.id this] revised)
          | Rejected e => Rejected (errorHandler e)
          end,
          {| db := write.2;
             calls := calls w ++ [FindById id forced;
                                  InstanceUpdate instance copy
                                    (read_options this params)] |})).
Proof.
  intros lookup looked Hdata. subst looked.
  unfold update, forced, read_options in *. rewrite Hdata.
  unfold catch_, then_, invoke. cbn [fst snd]. fold lookup.
  destruct lookup as [[[instance |] | e] s]; cbn [fst snd].
  - split; [done |]. split; [done |]. split.
    + intros ? [= <-] Hnone Hfields.
      destruct Hnone as [-> | ->]; simpl;
        (destruct (decide _); [done |]); by eexists.
    + intros ? copy [= <-] ->. cbn [db calls].
      match goal with |- context [instance_update ?m ?i ?c ?o ?s] =>
        destruct (instance_update m i c o s) as [[revised | e] s'] end;
        cbn [fst snd]; rewrite <- app_assoc; [| done].
      by destruct (is_false _).
  - split; [done |]. split; [done |]. split; [done |]. by intros.
  - split; [by intros ? [= <-] |]. split; [done |]. split; by intros.
Qed.

Lemma update_writes_only_what_it_found_witness :
  let this := Example.tasks "sqlite" in
  let params := Example.params VUndef VUndef VUndef in
  let data := VObj (<["name" := VStr "proofread"]> ∅) in
  let row := Example.task 2 "review" "open" in
  let copy : obj :=
    <["id" := VNull]> (<["name" := VStr "proofread"]> (<["status" := VNull]> ∅)) in
  ((isArray data = false
    ∧ (findById (Service.Model Example.offline) (VNum 2) forced tt).1
      = Rejected Example.unreachable)
   ∧ update Example.offline (VNum 2) data params Example.nowhere
     = (Rejected (errorHandler Example.unreachable),
        {| db := tt; calls := [FindById (VNum 2) forced] |}))
  ∧ ((isArray data = false
      ∧ (findById (Service.Model this) (VNum 9) forced Example.table).1 = Resolved None)
     ∧ update this (VNum 9) data params Example.world
       = (Rejected (not_found (VNum 9)),
          {| db := Example.table; calls := [FindById (VNum 9) forced] |}))
  ∧ ((isArray VNull = false
      ∧ (findById (Service.Model this) (VNum 2) forced Example.table).1
        = Resolved (Some (VObj row))
      ∧ own (toJSON (VObj row)) ≠ ∅)
     ∧ ∃ e, update this (VNum 2) VNull params Example.world
            = (Rejected e, {| db := Example.table; calls := [FindById (VNum 2) forced] |})
            ∧ kind_of e = TypeError)
  ∧ ((isArray data = false
      ∧ (findById (Service.Model this) (VNum 2) forced Example.table).1
        = Resolved (Some (VObj row))
      ∧ replacement data (own (toJSON (VObj row))) = inr copy)
     ∧ (update this (VNum 2) data params Example.world).1 = Resolved (VObj copy)).
Proof.
  intros this params data row copy.
  assert (own (toJSON (VObj row)) ≠ ∅) as Hfields.
  { intros Hempty. apply (f_equal (λ m : obj, m !! "id")) in Hempty. discriminate. }
  assert (replacement data (own (toJSON (VObj row))) = inr copy) as Hcopy
    by (vm_compute; reflexivity).
  split; [| split; [| split]].
  - split; [split; reflexivity |].
    destruct (update_writes_only_what_it_found Example.offline (VNum 2) data params
                Example.nowhere eq_refl) as (Hrejected & _).
    exact (Hrejected _ eq_refl).
  - split; [split; reflexivity |].
    destruct (update_writes_only_what_it_found this (VNum 9) data params
                Example.world eq_refl) as (_ & Hmissing & _).
    exact (Hmissing eq_refl).
  - split; [split; [reflexivity | split; [reflexivity | exact Hfields]] |].
    destruct (update_writes_only_what_it_found this (VNum 2) VNull params
                Example.world eq_refl) as (_ & _ & Hunreadable & _).
    exact (Hunreadable (VObj row) eq_refl (or_introl eq_refl) Hfields).
  - split; [split; [reflexivity | split; [reflexivity | exact Hcopy]] |].
    destruct (update_writes_only_what_it_found this (VNum 2) data params
                Example.world eq_refl) as (_ & _ & _ & Hwritten).
    etrans; [exact (f_equal fst (Hwritten (VObj row) copy eq_refl Hcopy)) |].
    vm_compute. reflexivity.
Defined.

(** *** [remove] *)

(** X8.  [remove] destroys at most once, with the where clause of the
    call, and in this order: when [$returning] is [false] it calls
    [destroy] at once and resolves with the empty array; otherwise it
    first looks up what it will return, with calls that only read (the
    query as [select] leaves it, see [after_select]), and calls
    [destroy] only when the lookup succeeded.  A lookup that is
    rejected (NotFound for a missing id) leaves nothing destroyed, and a
    [destroy] that is rejected is reported through [errorHandler]
    although the lookup had succeeded. *)
Theorem remove_destroys_after_the_lookup {S} {utils : Utils} (this : Service.t S)
    (id : value) (params : Params.t) (w : World S) :
  let options := write_options this id params in
  let lookup := _getOrFind this id (after_select this params) w in
  (is_false (Params.returning params) = true →
   let gone := destroy (Service.Model this) options (db w) in
   remove this id params w
   = (match gone.1 with
      | Resolved _ => Resolved (VArr [])
      | Rejected e => Rejected (errorHandler e)
      end,
      {| db := gone.2; calls := calls w ++ [Destroy options] |}))
  ∧ (is_false (Params.returning params) = false →
     (∃ new, calls lookup.2 = calls w ++ new ∧ Forall reads new)
     ∧ (∀ e, lookup.1 = Rejected e →
             remove this id params w = (Rejected (errorHandler e), lookup.2))
     ∧ (∀ data, lookup.1 = Resolved data →
          let gone := destroy (Service.Model this) options (db lookup.2) in
          remove this id params w
          = (match gone.1 with
             | Resolved _ =>
                 Resolved (select (Params.query params) [Service.id this] data)
             | Rejected e => Rejected (errorHandler e)
             end,
             {| db := gone.2; calls := calls lookup.2 ++ [Destroy options] |}))).
Proof.
  intros options lookup. subst options lookup. rewrite remove_run.
  split; intros ->.
  - done.
  - split; [apply reads_getOrFind |].
    destruct (_getOrFind this id (after_select this params) w)
      as [[data | e] looked]; cbn [fst snd].
    + split; [done |]. by intros ? [= <-].
    + split; [by intros ? [= <-] | done].
Qed.

Lemma remove_destroys_after_the_lookup_witness :
  let this := Example.tasks "sqlite" in
  let params := Example.params VUndef VUndef VUndef in
  let quiet := Example.params VUndef VUndef (VBool false) in
  (is_false (Params.returning quiet) = true
   ∧ remove (utils := Mem.utils) this (VNum 2) quiet Example.world
     = (Resolved (VArr []),
        {| db := {| Mem.columns := Mem.columns Example.table;
                    Mem.rows := [Example.task 1 "write" "open";
                                 Example.task 3 "ship" "done"];
                    Mem.serial := 4 |};
           calls := [Destroy (write_options this (VNum 2) quiet)] |}))
  ∧ ((is_false (Params.returning params) = false
      ∧ (_getOrFind (utils := Mem.utils) this (VNum 9) (after_select this params)
           Example.world).1
        = Rejected (not_found (VNum 9)))
     ∧ remove (utils := Mem.utils) this (VNum 9) params Example.world
       = (Rejected (not_found (VNum 9)),
          {| db := Example.table;
             calls := [FindById (VNum 9) (read_options this params)] |}))
  ∧ ((is_false (Params.returning params) = false
      ∧ (_getOrFind (utils := Mem.utils) this (VNum 2) (after_select this params)
           Example.world).1
        = Resolved (VObj (Example.task 2 "review" "open")))
     ∧ remove (utils := Mem.utils) this (VNum 2) params Example.world
       = (Resolved (VObj (Example.task 2 "review" "open")),
          {| db := {| Mem.columns := Mem.columns Example.table;
                      Mem.rows := [Example.task 1 "write" "open";
                                   Example.task 3 "ship" "done"];
                      Mem.serial := 4 |};
             calls := [FindById (VNum 2) (read_options this params);
                       Destroy (write_options this (VNum 2) params)] |})).
Proof.
  intros this params quiet. split; [| split].
  - split; [reflexivity |].
    destruct (remove_destroys_after_the_lookup (utils := Mem.utils) this (VNum 2) quiet
                Example.world) as [Hquiet _].
    etrans; [exact (Hquiet eq_refl) | vm_compute; reflexivity].
  - split; [split; vm_compute; reflexivity |].
    destruct (remove_destroys_after_the_lookup (utils := Mem.utils) this (VNum 9) params
                Example.world) as [_ Hlookup].
    destruct (Hlookup eq_refl) as (_ & Hrejected & _).
    etrans; [apply (Hrejected (not_found (VNum 9))) |]; vm_compute; reflexivity.
  - split; [split; vm_compute; reflexivity |].
    destruct (remove_destroys_after_the_lookup (utils := Mem.utils) this (VNum 2) params
                Example.world) as [_ Hlookup].
    destruct (Hlookup eq_refl) as (_ & _ & Hfound).
    etrans; [apply (Hfound (VObj (Example.task 2 "review" "open"))) |];
      vm_compute; reflexivity.
Defined.

(** *** [patch] when the ORM fails *)

(** X9.  [patch] makes no call after one that failed, and does not
    undo the update it made.  On the returning path the update is the
    only call, and when it is rejected [patch] rejects through
    [errorHandler].  On the generic path the ids come first: the id
    itself, or for a [null] id a listing with [findAndCount]; a
    rejected listing means that no update is made.  Then comes the
    update, and when it is rejected nothing follows it.  And when the
    update went through but the re-read is rejected, [patch] is
    rejected, the re-read has made only calls that read, and the world
    is as the update and the re-read left it. *)
Theorem patch_stops_at_a_failure {S} {utils : Utils} (this : Service.t S)
    (id data : value) (params : Params.t) (w : World S) :
  let values := omit data [Service.id this] in
  let returning := String.eqb (dialect (Service.Model this)) "postgres"
                   && negb (is_false (Params.returning params)) in
  let options := write_options this id params in
  let listing := find_options this (after_select this params) plain in
  let listed :=
    if is_null id
    then then_ (_find this (after_select this params) plain)
           (λ page, resolve ((λ current, prop current (Service.id this))
                               <$> Page.data page)) w
    else (Resolved [id], w) in
  (returning = true →
   ∀ e, (Orm.update (Service.Model this) values
           (<["returning" := VBool true]> options) (db w)).1 = Rejected e →
        patch this id data params w
        = (Rejected (errorHandler e),
           {| db := (Orm.update (Service.Model this) values
                       (<["returning" := VBool true]> options) (db w)).2;
              calls := calls w
                       ++ [Update values (<["returning" := VBool true]> options)] |}))
  ∧ (returning = false →
     calls listed.2 = calls w ++ (if is_null id then [FindAndCount listing] else [])
     ∧ (∀ e, listed.1 = Rejected e →
             patch this id data params w = (Rejected (errorHandler e), listed.2))
     ∧ (∀ ids, listed.1 = Resolved ids →
          let answer := Orm.update (Service.Model this) values options (db listed.2) in
          let written := {| db := answer.2;
                            calls := calls listed.2 ++ [Update values options] |} in
          let reread :=
            _getOrFind this id (re_query (Service.id this) ids params) written in
          (∀ e, answer.1 = Rejected e →
                patch this id data params w = (Rejected (errorHandler e), written))
          ∧ (∀ results e,
               answer.1 = Resolved results →
               is_false (Params.returning params) = false →
               reread.1 = Rejected e →
               patch this id data params w = (Rejected (errorHandler e), reread.2)
               ∧ ∃ new, calls reread.2 = calls written ++ new ∧ Forall reads new))).
Proof.
  intros values returning options listing listed.
  subst values options listing.
  split.
  - intros Hpath e. subst returning.
    rewrite patch_returning_run by done. by intros ->.
  - intros Hpath. subst returning. rewrite patch_generic_run by done.
    fold listed. split; [| split].
    + subst listed. destruct (is_null id).
      * unfold then_. rewrite find_run. cbn [fst snd].
        by destruct (findAndCount _ _ _).1.
      * by rewrite app_nil_r.
    + intros e Hlisted. destruct listed as [[ids | e'] w']; cbn [fst snd] in *;
        by simplify_eq.
    + intros ids Hlisted.
      destruct listed as [[ids' | e'] w']; cbn [fst snd] in *; [| done].
      injection Hlisted as ->. cbn zeta. split.
      * by intros e ->.
      * intros results e -> -> Hreread.
        pose proof (reads_getOrFind this id (re_query (Service.id this) ids params)
                      {| db := (Orm.update (Service.Model this)
                                  (omit data [Service.id this])
                                  (write_options this id params) (db w')).2;
                         calls := calls w'
                                  ++ [Update (omit data [Service.id this])
                                        (write_options this id params)] |})
          as Hreads.
        destruct (_getOrFind _ _ _ _) as [[r | e''] w'']; cbn [fst snd] in *;
          [done |]. by simplify_eq.
Qed.

Lemma patch_stops_at_a_failure_witness :
  let data := VObj (<["status" := VStr "done"]> ∅) in
  let params := Example.params VUndef VUndef VUndef in
  let this := Example.tasks "sqlite" in
  let values := omit data ["id"] in
  ((String.eqb (dialect (Service.Model Example.stalled)) "postgres"
    && negb (is_false (Params.returning params)) = true)
   ∧ patch (utils := Mem.utils) Example.stalled (VNum 2) data params Example.nowhere
     = (Rejected (errorHandler Example.unreachable),
        {| db := tt;
           calls := [Update values
                       (<["returning" := VBool true]>
                          (write_options Example.stalled (VNum 2) params))] |}))
  ∧ ((String.eqb (dialect (Service.Model Example.offline)) "postgres"
      && negb (is_false (Params.returning params)) = false)
     ∧ patch (utils := Mem.utils) Example.offline VNull data params Example.nowhere
       = (Rejected (errorHandler (errorHandler Example.unreachable)),
          {| db := tt;
             calls := [FindAndCount
                         (find_options (utils := Mem.utils) Example.offline
                            (after_select Example.offline params) plain)] |}))
  ∧ ((String.eqb (dialect (Service.Model Example.archive)) "postgres"
      && negb (is_false (Params.returning params)) = false)
     ∧ patch (utils := Mem.utils) Example.archive VNull data params Example.world
       = (Rejected (errorHandler Example.read_only),
          {| db := Example.table;
             calls := [FindAndCount
                         (find_options (utils := Mem.utils) Example.archive
                            (after_select Example.archive params) plain);
                       Update values (write_options Example.archive VNull params)] |}))
  ∧ ((String.eqb (dialect (Service.Model this)) "postgres"
      && negb (is_false (Params.returning params)) = false
      ∧ is_false (Params.returning params) = false)
     ∧ patch (utils := Mem.utils) this (VNum 9) data params Example.world
       = (Rejected (not_found (VNum 9)),
          {| db := Example.table;
             calls := [Update values (write_options this (VNum 9) params);
                       FindById (VNum 9) (read_options this params)] |})).
Proof.
  intros data params this values. split; [| split; [| split]].
  - split; [reflexivity |].
    destruct (patch_stops_at_a_failure (utils := Mem.utils) Example.stalled
                (VNum 2) data params Example.nowhere) as (Hfirst & _).
    exact (Hfirst eq_refl Example.unreachable eq_refl).
  - split; [reflexivity |].
    destruct (patch_stops_at_a_failure (utils := Mem.utils) Example.offline VNull
                data params Example.nowhere) as (_ & Hgeneric).
    destruct (Hgeneric eq_refl) as (_ & Hlisting & _).
    etrans; [exact (Hlisting (errorHandler Example.unreachable) eq_refl) |].
    vm_compute. reflexivity.
  - split; [reflexivity |].
    destruct (patch_stops_at_a_failure (utils := Mem.utils) Example.archive VNull
                data params Example.world) as (_ & Hgeneric).
    destruct (Hgeneric eq_refl) as (_ & _ & Hlisted).
    destruct (Hlisted [VNum 1; VNum 2; VNum 3] eq_refl) as [Hupdate _].
    etrans; [exact (Hupdate Example.read_only eq_refl) |].
    vm_compute. reflexivity.
  - split; [split; reflexivity |].
    destruct (patch_stops_at_a_failure (utils := Mem.utils) this (VNum 9)
                data params Example.world) as (_ & Hgeneric).
    destruct (Hgeneric eq_refl) as (_ & _ & Hlisted).
    destruct (Hlisted [VNum 9] eq_refl) as [_ Hreread].
    destruct (Hreread (0, []) (not_found (VNum 9)) eq_refl eq_refl eq_refl)
      as [Hpatch _].
    etrans; [exact Hpatch |]. vm_compute. reflexivity.
Defined.

(** *** What [patch] and [remove] write *)

(** X10.  [patch] and [remove] write at most once, and only where the
    call says.  All their other calls read; the one write is the
    [update] of [patch], with the data without the id field, or the
    [destroy] of [remove]; and its where clause is the one built from
    the query and the id, which [params.sequelize] cannot replace,
    while the other options of [params.sequelize] are passed on as they
    are.  In that clause an id that is not [null] stands under the id
    field (whatever the query says about that field), the filter
    properties [$sort], [$limit], [$skip], [$select] and [$populate] do
    not occur, and every other property of the query is as the query
    has it. *)
Theorem patch_and_remove_write_once {S} {utils : Utils} (this : Service.t S)
    (id data : value) (params : Params.t) (w : World S) :
  let where_ := target this id params in
  (∃ before write after,
     calls (patch this id data params w).2 = calls w ++ before ++ write ++ after
     ∧ Forall reads before
     ∧ Forall reads after
     ∧ (write = []
        ∨ ∃ options, write = [Update (omit data [Service.id this]) options]
                     ∧ options !! "where" = Some (VObj where_)
                     ∧ ∀ k, k ≠ "where" → k ≠ "returning" →
                            options !! k = own (Params.sequelize params) !! k))
  ∧ (∃ before write,
       calls (remove this id params w).2 = calls w ++ before ++ write
       ∧ Forall reads before
       ∧ (write = []
          ∨ ∃ options, write = [Destroy options]
                       ∧ options !! "where" = Some (VObj where_)
                       ∧ ∀ k, k ≠ "where" →
                              options !! k = own (Params.sequelize params) !! k))
  ∧ (is_null id = false → where_ !! Service.id this = Some id)
  ∧ (∀ k, k ≠ Service.id this ∨ is_null id = true →
          where_ !! k
          = if decide (k ∈ Filters.PROPERTIES) then None
            else own (or_else (Params.query params) (VObj ∅)) !! k).
Proof.
  intros where_. subst where_.
  split; [| split; [| split]].
  - destruct (String.eqb (dialect (Service.Model this)) "postgres"
              && negb (is_false (Params.returning params))) eqn:Hpath.
    + rewrite patch_returning_run by done. cbn [snd calls].
      exists [], [Update (omit data [Service.id this])
                    (<["returning" := VBool true]> (write_options this id params))], [].
      split; [done |]. split; [done |]. split; [done |].
      right. eexists. split; [done |]. split.
      * rewrite lookup_insert_ne by done. apply write_options_where.
      * intros k Hk Hr. rewrite lookup_insert_ne by done.
        by apply write_options_other.
    + rewrite patch_generic_run by done.
      assert (∃ before ids listed,
                (if is_null id
                 then then_ (_find this (after_select this params) plain)
                        (λ page, resolve ((λ current, prop current (Service.id this))
                                            <$> Page.data page)) w
                 else (Resolved [id], w))
                = (ids, listed)
                ∧ calls listed = calls w ++ before ∧ Forall reads before)
        as (before & ids & listed & -> & Hlisted & Hbefore).
      { destruct (is_null id).
        - destruct (emits_then reads (_find this (after_select this params) plain)
                      (λ page, resolve ((λ current, prop current (Service.id this))
                                          <$> Page.data page))
                      (reads_find this (after_select this params) plain)
                      (λ page, emits_resolve reads _) w) as (new & Hnew & Hreads).
          destruct (then_ _ _ w) as [ids listed]. by exists new, ids, listed.
        - exists [], (Resolved [id]), w. by rewrite app_nil_r. }
      destruct ids as [ids | e].
      * cbn zeta.
        destruct (Orm.update _ _ _ _).1 as [results | e].
        -- destruct (is_false (Params.returning params)).
           ++ exists before, [Update (omit data [Service.id this])
                                (write_options this id params)], [].
              cbn [snd calls]. rewrite Hlisted, app_nil_r, <- app_assoc.
              split; [done |]. split; [done |]. split; [done |]. as_told.
           ++ match goal with |- context [_getOrFind this id ?p ?w'] =>
                destruct (reads_getOrFind this id p w') as (after & Hafter & Hreads);
                destruct (_getOrFind this id p w') as [[r | e] w''] end;
                cbn [snd calls] in *;
                exists before, [Update (omit data [Service.id this])
                                  (write_options this id params)], after;
                (split; [by rewrite Hafter, Hlisted, <- !app_assoc |]);
                (split; [done |]); (split; [done |]); as_told.
        -- exists before, [Update (omit data [Service.id this])
                             (write_options this id params)], [].
           cbn [snd calls]. rewrite Hlisted, app_nil_r, <- app_assoc.
           split; [done |]. split; [done |]. split; [done |]. as_told.
      * exists before, [], []. cbn [snd]. rewrite Hlisted, !app_nil_r.
        split; [done |]. split; [done |]. split; [done |]. by left.
  - rewrite remove_run. destruct (is_false (Params.returning params)).
    + exists [], [Destroy (write_options this id params)]. cbn [snd calls].
      split; [done |]. split; [done |]. as_told.
    + destruct (reads_getOrFind this id (after_select this params) w)
        as (before & Hbefore & Hreads).
      destruct (_getOrFind this id (after_select this params) w)
        as [[found | e] looked]; cbn [snd calls] in *.
      * exists before, [Destroy (write_options this id params)].
        rewrite Hbefore, <- app_assoc.
        split; [done |]. split; [done |]. as_told.
      * exists before, []. rewrite app_nil_r.
        split; [done |]. split; [done |]. by left.
  - apply target_pins.
  - intros k Hk. by apply target_lookup.
Qed.

Lemma patch_and_remove_write_once_witness :
  let this := Example.tasks "sqlite" in
  let query := VObj (<["id" := VNum 7]>
                     (<["status" := VStr "open"]> (<["$limit" := VNum 1]> ∅))) in
  let sequelize := VObj (<["where" := VObj (<["status" := VStr "done"]> ∅)]> ∅) in
  let params := Example.params query sequelize VUndef in
  let where_ := target this (VNum 2) params in
  (is_null (VNum 2) = false ∧ "status" ≠ Service.id this ∧ "$limit" ≠ Service.id this)
  ∧ where_ !! "id" = Some (VNum 2)
  ∧ where_ !! "status" = Some (VStr "open")
  ∧ where_ !! "$limit" = None
  ∧ (∃ before write,
       calls (remove (utils := Mem.utils) this (VNum 2) params Example.world).2
       = calls Example.world ++ before ++ write
       ∧ Forall reads before
       ∧ (write = []
          ∨ ∃ options, write = [Destroy options]
                       ∧ options !! "where" = Some (VObj where_)
                       ∧ ∀ k, k ≠ "where" →
                              options !! k = own (Params.sequelize params) !! k)).
Proof.
  intros this query sequelize params where_.
  split; [repeat split; discriminate |].
  destruct (patch_and_remove_write_once (utils := Mem.utils) this (VNum 2) VUndef params
              Example.world) as (_ & Hremove & Hid & Hother).
  split; [exact (Hid eq_refl) |].
  split; [etrans; [apply (Hother "status"); left; discriminate | reflexivity] |].
  split; [etrans; [apply (Hother "$limit"); left; discriminate | reflexivity] |].
  exact Hremove.
Defined.

(** *** Pagination *)

(** X11.  Pagination settings matter to [find] alone.  [get],
    [create], [update], [patch] and [remove] behave the same under any
    settings of the service and of the call: the queries by which
    [patch] and [remove] list and re-read many records filter without
    them, so that neither a default nor a maximum limits the records
    those methods change or return. *)
Theorem pagination_is_for_find_alone {S} {utils : Utils} (this : Service.t S)
    (of_service of_call : value) (id data : value) (params : Params.t) :
  let this' := with_paginate of_service this in
  let params' := paginated of_call params in
  get this' id params' = get this id params
  ∧ Adapter.create this' data params' = Adapter.create this data params
  ∧ Adapter.update this' id data params' = Adapter.update this id data params
  ∧ patch this' id data params' = patch this id data params
  ∧ remove this' id params' = remove this id params.
Proof. repeat split. Qed.

(** *** Reading back on the in-memory model *)

Section Stored.




End Stored.





(** X14.  What [remove] removed, [get] no longer finds.  On a table
    keyed by the id field, after a [remove] of an id that resolved,
    [get] of that id rejects with NotFound, provided that every record
    of that id satisfies the where clause of the removal (as when the
    query has no conditions). *)
Theorem get_after_remove {utils : Utils} (pk sql : string) (paginate : value)
    (raw : bool) (id_ : value) (params reading : Params.t) (w : World Mem.DB)
    (v : value) :
  let this := Mem.service pk sql pk paginate raw in
  (remove this id_ params w).1 = Resolved v →
  (∀ row, row ∈ Mem.rows (db w) →
          Mem.has_key pk id_ row = true →
          Mem.matches (VObj (target this id_ params)) row = true) →
  eager reading = false →
  (get this id_ reading (remove this id_ params w).2).1 = Rejected (not_found id_).
Proof.
  intros this Hremoved Hall Heager. subst this.
  apply get_not_there; [| done].
  rewrite (remove_resolved pk sql pk paginate raw id_ params w v) by done.
  unfold removed. cbn [Mem.rows].
  destruct (List.find _ _) as [row |] eqn:Hfind; [| done].
  apply find_some in Hfind as [Hin Hkey].
  apply list_elem_of_In, list_elem_of_filter in Hin as [Hmiss Hin].
  rewrite Hall in Hmiss; done.
Qed.

Lemma get_after_remove_witness :
  let this := Example.tasks "sqlite" in
  let params := Example.params VUndef VUndef VUndef in
  ((remove (utils := Mem.utils) this (VNum 2) params Example.world).1
   = Resolved (VObj (Example.task 2 "review" "open"))
   ∧ eager params = false)
  ∧ (get (utils := Mem.utils) this (VNum 2) params
       (remove (utils := Mem.utils) this (VNum 2) params Example.world).2).1
    = Rejected (not_found (VNum 2)).
Proof.
  intros this params.
  assert ((remove (utils := Mem.utils) this (VNum 2) params Example.world).1
          = Resolved (VObj (Example.task 2 "review" "open"))) as Hremoved
    by (vm_compute; reflexivity).
  split; [split; [exact Hremoved | reflexivity] |].
  apply (get_after_remove (utils := Mem.utils) "id" "sqlite" (VObj ∅) true
           (VNum 2) params params Example.world _ Hremoved); [| reflexivity].
  intros row Hin Hkey.
  apply list_elem_of_In in Hin. simpl in Hin.
  destruct Hin as [<- | [<- | [<- | []]]]; vm_compute in Hkey |- *; congruence.
Defined.

(** *** The in-memory model: what a query finds, and whom a write reaches *)

Section Reach.
Context {utils : Utils}.
Variables (pk sql : string) (paginate : value) (raw : bool).
#[local] Abbreviation this := (Mem.service pk sql pk paginate raw).

Lemma target_hits_key id_ params (row : obj) :
  is_key id_ = true →
  Mem.matches (VObj (target this id_ params)) row = true →
  Mem.has_key pk id_ row = true.
Proof.
  intros Hkey Hhit. rewrite target_key in Hhit by by apply is_key_not_null.
  apply matches_insert_holds in Hhit. by rewrite holds_key in Hhit.
Qed.

Lemma remove_db id_ params w :
  db (remove this id_ params w).2 = db w
  ∨ db (remove this id_ params w).2 = removed this id_ params (db w).
Proof.
  rewrite remove_run. destruct (is_false (Params.returning params)).
  - right. cbn [snd db]. unfold removed, write_options.
    cbn [Service.Model Mem.service destroy Mem.model Mem.mem_destroy snd].
    by rewrite where_of_options.
  - pose proof (getOrFind_reads pk sql pk paginate raw id_ (after_select this params) w)
      as Hreads.
    destruct (_getOrFind this id_ (after_select this params) w) as [[data | e] looked];
      cbn [snd db] in *; [| by left].
    right. unfold removed, write_options.
    cbn [Service.Model Mem.service destroy Mem.model Mem.mem_destroy snd].
    by rewrite where_of_options, Hreads.
Qed.
End Reach.

(** X15.  A [patch] or a [remove] of one id reaches the records of that
    id alone.  On a table keyed by the id field, with an id that is a
    number or a string: after [patch] the table has the same number of
    rows and every row of another id is where it was and as it was;
    after [remove] every row of another id is still in the table,
    whatever the query, [params.sequelize] and the outcome are. *)
Theorem writes_reach_one_id {utils : Utils} (pk sql : string) (paginate : value)
    (raw : bool) (id_ data : value) (params : Params.t) (w : World Mem.DB) :
  let this := Mem.service pk sql pk paginate raw in
  is_key id_ = true →
  (length (Mem.rows (db (patch this id_ data params w).2)) = length (Mem.rows (db w))
   ∧ ∀ i row, Mem.rows (db w) !! i = Some row →
              Mem.has_key pk id_ row = false →
              Mem.rows (db (patch this id_ data params w).2) !! i = Some row)
  ∧ (∀ row, row ∈ Mem.rows (db w) →
            Mem.has_key pk id_ row = false →
            row ∈ Mem.rows (db (remove this id_ params w).2)).
Proof.
  intros this Hkey. subst this. split; [split |].
  - rewrite patch_db. unfold updated. cbn [Mem.rows]. apply length_fmap.
  - intros i row Hrow Hother. rewrite patch_db. unfold updated. cbn [Mem.rows].
    rewrite list_lookup_fmap, Hrow. cbn.
    destruct (Mem.matches _ row) eqn:Hhit; [| done].
    apply target_hits_key in Hhit; [congruence | done].
  - intros row Hin Hother.
    destruct (remove_db pk sql paginate raw id_ params w) as [-> | ->]; [done |].
    unfold removed. cbn [Mem.rows]. apply list_elem_of_filter. split; [| done].
    destruct (Mem.matches _ row) eqn:Hhit; [| done].
    apply target_hits_key in Hhit; [congruence | done].
Qed.

Lemma writes_reach_one_id_witness :
  let this := Example.tasks "sqlite" in
  let data := VObj (<["status" := VStr "done"]> ∅) in
  let params := Example.params VUndef VUndef VUndef in
  (is_key (VNum 2) = true
   ∧ Mem.rows (db Example.world) !! 0%nat = Some (Example.task 1 "write" "open")
   ∧ Mem.has_key "id" (VNum 2) (Example.task 1 "write" "open") = false)
  ∧ Mem.rows (db (patch (utils := Mem.utils) this (VNum 2) data params
                    Example.world).2) !! 0%nat
    = Some (Example.task 1 "write" "open")
  ∧ Example.task 1 "write" "open"
    ∈ Mem.rows (db (remove (utils := Mem.utils) this (VNum 2) params Example.world).2).
Proof.
  intros this data params. split; [repeat split; reflexivity |].
  destruct (writes_reach_one_id (utils := Mem.utils) "id" "sqlite" (VObj ∅) true
              (VNum 2) data params Example.world eq_refl) as [[_ Hpatch] Hremove].
  split.
  - apply Hpatch; reflexivity.
  - apply Hremove; [apply list_elem_of_here | reflexivity].
Defined.


